(** * SkladBot: a verification development

    Shallow embedding of the pieces of the debtor-notification bot that carry
    its stated properties:

    - [Phone]       : [User.normalizePhone] and the schema's phone validator
                      (src/models/User.js);
    - [Cache]       : the TTL cache statics [get], [set], [delete], [clearAll],
                      [clearExpired] (src/models/Cache.js);
    - [MoySklad]    : [findCounterpartyByPhone], [getCounterpartyDetails] and
                      [getCounterpartyByPhone] (src/services/moysklad.service.js);
    - [RateLimiter] : the queue of src/utils/rateLimiter.js, run against a
                      virtual clock;
    - [Reminder]    : [processUser] and [execute] of the cron sender;
    - [Settings]    : the key-value settings (models/Settings.js);
    - [Clock]       : [getCurrentTime], the send-time validator and the
                      route that stores the global send time;
    - [PhoneScript] : the normaliser of the phone test script;
    - [Balances]    : [isDebtor], [getDebtAmount], [calculateStatistics]
                      and the walk over all counterparties;
    - [Queue]       : [getQueueSize], [clearQueue] and what the counter of
                      the rate limiter counts;
    - [Admin]       : the manual reminder route and [sendBroadcast].

    Time is the millisecond count of [Date.now()], an integer.  Every
    [await] is a point where the outside world answers; the answers are
    taken as inputs of the functions below. *)

From Stdlib Require Import ZArith QArith Qabs Lia Lqa Bool List Ascii String DecimalString.
From stdpp Require Import base option list gmap strings.
Import ListNotations.

Local Open Scope Z_scope.

(* ===================================================================== *)
(** ** Phone numbers (src/models/User.js) *)
(* ===================================================================== *)

Module Phone.

Local Open Scope string_scope.

(** [\d] of a JavaScript regular expression without the unicode flag:
    the ten ASCII digits. *)
Definition is_digit (c : ascii) : bool :=
  let n := nat_of_ascii c in (Nat.leb 48 n && Nat.leb n 57)%bool.

(** [s.replace(/\D/g, "")] *)
Fixpoint strip_non_digits (s : string) : string :=
  match s with
  | EmptyString => EmptyString
  | String c r =>
      if is_digit c then String c (strip_non_digits r)
      else strip_non_digits r
  end.

(** [s.startsWith(p)] *)
Fixpoint startsWith (p s : string) : bool :=
  match p, s with
  | EmptyString, _ => true
  | String a p', String b s' => (Ascii.eqb a b && startsWith p' s')%bool
  | String _ _, EmptyString => false
  end.

Fixpoint all_chars (f : ascii -> bool) (s : string) : bool :=
  match s with
  | EmptyString => true
  | String c r => (f c && all_chars f r)%bool
  end.

(** [userSchema.statics.normalizePhone] *)
Definition normalizePhone (phone : string) : string :=
  let cleaned := strip_non_digits phone in
  if startsWith "998" cleaned then "+" ++ cleaned
  else if Nat.eqb (String.length cleaned) 9 then "+998" ++ cleaned
  else if negb (startsWith "+" cleaned) then "+" ++ cleaned
  else cleaned.

(** The validator of the [phone] field: [/^\+998\d{9}$/.test(v)]. *)
Definition valid_phone (v : string) : bool :=
  match v with
  | String "+" (String "9" (String "9" (String "8" national))) =>
      (Nat.eqb (String.length national) 9 && all_chars is_digit national)%bool
  | _ => false
  end.

(** The inputs the specification speaks of: digits, spaces, dashes and
    parentheses, behind a leading [998] or [+998]. *)
Definition is_separator (c : ascii) : bool :=
  (Ascii.eqb c " " || Ascii.eqb c "-" || Ascii.eqb c "(" || Ascii.eqb c ")")%bool.

Definition phone_char (c : ascii) : bool := (is_digit c || is_separator c)%bool.

Definition prefixed_input (p : string) : bool :=
  match p with
  | String "+" r => (startsWith "998" r && all_chars phone_char r)%bool
  | _ => (startsWith "998" p && all_chars phone_char p)%bool
  end.

End Phone.

(* ===================================================================== *)
(** ** The TTL cache (src/models/Cache.js) *)
(* ===================================================================== *)

Module Cache.
Section WithPayload.

(** [data] is [Mixed]: any JSON payload. *)
Context {V : Type}.

(** One document of the [cache] collection.  [key] carries a unique
    index, so the collection holds at most one document for a key: it is
    a [gmap string doc]. *)
Record doc := Doc { data : V; expiresAt : Z; createdAt : Z }.

(** [cacheSchema.statics.get], run when [new Date()] reads [now]:
    [findOne({ key, expiresAt: { $gt: now } })], then [null] or
    [cache.data]. *)
Definition get (now : Z) (key : string) (c : gmap string doc) : option V :=
  match c !! key with
  | Some d => if now <? expiresAt d then Some (data d) else None
  | None => None
  end.

(** [cacheSchema.statics.set], run when [Date.now()] reads [now]:
    an upsert of the whole document; returns [data]. *)
Definition set (now : Z) (key : string) (v : V) (ttlSeconds : Z)
    (c : gmap string doc) : gmap string doc * V :=
  let expires := now + ttlSeconds * 1000 in
  (<[key := Doc v expires now]> c, v).

(** [cacheSchema.statics.delete] *)
Definition delete (key : string) (c : gmap string doc) : gmap string doc :=
  base.delete key c.

(** [cacheSchema.statics.clearAll] *)
Definition clearAll (c : gmap string doc) : gmap string doc := ∅.

(** [cacheSchema.statics.clearExpired]:
    [deleteMany({ expiresAt: { $lt: now } })]. *)
Definition clearExpired (now : Z) (c : gmap string doc) : gmap string doc :=
  filter (fun kd => ¬ (expiresAt kd.2 < now)) c.

(** The database's own sweep for the index
    [{ expiresAt: 1 }, { expireAfterSeconds: 0 }]: documents whose
    expiry is not in the future may be dropped at any moment. *)
Definition ttlMonitor (now : Z) (c : gmap string doc) : gmap string doc :=
  filter (fun kd => now < expiresAt kd.2) c.

End WithPayload.
Arguments doc : clear implicits.
End Cache.

(* ===================================================================== *)
(** ** The accounting API client (src/services/moysklad.service.js) *)
(* ===================================================================== *)

Module MoySklad.
Import Phone.
Local Open Scope string_scope.

(** What [await fetch(url, ...)] followed by [await response.json()] comes
    to. *)
Inductive reply (A : Type) : Type :=
| Unreachable            (* [fetch] rejects: no connection, timeout      *)
| NotOk (code : Z)       (* [response.ok] is false                       *)
| Json (body : option A) (* [response.ok]; [None] when [json()] rejects  *).
Arguments Unreachable {A}.
Arguments NotOk {A} code.
Arguments Json {A} body.

(** The fields read from a counterparty object of the API.  A missing
    string field reads as [undefined], which [||] and [!] treat like the
    empty string; [account_balance] is [accounts?.[0]?.balance]. *)
Record counterparty_json := CounterpartyJson {
  cj_id : string;
  cj_name : string;
  cj_phone : string;
  cj_archived : bool;
  cj_account_balance : option Z
}.

(** [{ rows: [...] }] of the search; [None] when [rows] is missing. *)
Record search_json := SearchJson { search_rows : option (list counterparty_json) }.

(** A row of [/report/counterparty]: [row.counterparty?.meta?.href] and
    [row.balance]. *)
Record report_row := ReportRow { rr_href : option string; rr_balance : option Z }.

Record report_json := ReportJson { report_rows : option (list report_row) }.

(** The three endpoints the lookup reads, as the answers they give. *)
Record network := Network {
  search : string -> reply search_json;           (* by the cleaned phone *)
  detail : string -> reply counterparty_json;     (* by counterparty id   *)
  report : reply report_json
}.

Inductive status := Debtor | Creditor | Settled | Unknown.

(** The object built by [findCounterpartyByPhone]. *)
Record basic_info := BasicInfo {
  bi_id : string; bi_name : string; bi_phone : string;
  bi_balance : Q; bi_status : status
}.

(** The object built by [getCounterpartyDetails], which is also the cache
    payload. *)
Record details := Details {
  id : string; name : string; phone : string;
  balance : Q; status_of : status; isBlocked : bool
}.

(** [a || b] on strings. *)
Definition or_string (a b : string) : string :=
  match a with EmptyString => b | _ => a end.

(** [x || 0] on an optional number. *)
Definition or_zero (x : option Z) : Z :=
  match x with Some n => n | None => 0 end.

(** [x / 100]: the quotient is kept exact. *)
Definition div100 (x : Z) : Q := Qmake x 100.

Definition Qltb (x y : Q) : bool :=
  match Qcompare x y with Lt => true | _ => false end.

(** [\s] restricted to ASCII, and [+]. *)
Definition is_space_or_plus (c : ascii) : bool :=
  let n := nat_of_ascii c in
  (Nat.eqb n 32 || (Nat.leb 9 n && Nat.leb n 13) || Nat.eqb n 43)%bool.

(** [phone.replace(/[\s+]/g, "")] *)
Fixpoint clean_phone (s : string) : string :=
  match s with
  | EmptyString => EmptyString
  | String c r =>
      if is_space_or_plus c then clean_phone r else String c (clean_phone r)
  end.

(** [hay.includes(needle)] *)
Fixpoint includes (needle hay : string) : bool :=
  (startsWith needle hay ||
   match hay with
   | EmptyString => false
   | String _ r => includes needle r
   end)%bool.

(** [findCounterpartyByPhone]; every exception ends in [return null]. *)
Definition findCounterpartyByPhone (net : network) (ph : string)
  : option basic_info :=
  match ph with
  | EmptyString => None                       (* throw, caught *)
  | _ =>
      match search net (clean_phone ph) with
      | Unreachable => None
      | NotOk _ => None
      | Json None => None
      | Json (Some data) =>
          match search_rows data with
          | None => None
          | Some [] => None
          | Some (counterparty :: _) =>
              Some (BasicInfo (cj_id counterparty) (cj_name counterparty)
                              (or_string (cj_phone counterparty) ph)
                              0 Unknown)
          end
      end
  end.

(** [reportData.rows?.find(row =>
       row.counterparty?.meta?.href?.includes(counterpartyId))] *)
Definition find_report (rows : option (list report_row)) (counterpartyId : string)
  : option report_row :=
  match rows with
  | None => None
  | Some rs =>
      List.find (fun row =>
                   match rr_href row with
                   | Some h => includes counterpartyId h
                   | None => false
                   end) rs
  end.

(** [getCounterpartyDetails] *)
Definition getCounterpartyDetails (net : network) (counterpartyId : string)
  : option details :=
  match counterpartyId with
  | EmptyString => None                       (* throw, caught *)
  | _ =>
      match detail net counterpartyId with
      | Unreachable => None
      | NotOk _ => None
      | Json None => None
      | Json (Some counterparty) =>
          let blocked := cj_archived counterparty in
          match report net with
          | Unreachable => None
          | NotOk _ =>
              let balance := or_zero (cj_account_balance counterparty) in
              let balanceKopeks := div100 balance in
              Some (Details (cj_id counterparty) (cj_name counterparty)
                            (or_string (cj_phone counterparty) "")
                            balanceKopeks
                            (if Qltb balanceKopeks 0 then Debtor
                             else if Qltb 0 balanceKopeks then Creditor
                             else Settled)
                            blocked)
          | Json None => None
          | Json (Some reportData) =>
              let balance :=
                match find_report (report_rows reportData) counterpartyId with
                | Some counterpartyReport =>
                    div100 (or_zero (rr_balance counterpartyReport))
                | None =>
                    div100 (or_zero (cj_account_balance counterparty))
                end in
              let status :=
                if Qltb balance 0 then Debtor
                else if Qltb 0 balance then Creditor
                else Settled in
              Some (Details (cj_id counterparty) (cj_name counterparty)
                            (or_string (cj_phone counterparty) "")
                            balance status blocked)
          end
      end
  end.

(** The balance, in minor units, that the API gives for a counterparty:
    that of its row in the report when the report is served and has one,
    otherwise that of its first account; zero when the field is missing. *)
Definition raw_balance (counterparty : counterparty_json)
    (rep : reply report_json) (counterpartyId : string) : Z :=
  match rep with
  | Json (Some reportData) =>
      match find_report (report_rows reportData) counterpartyId with
      | Some row => or_zero (rr_balance row)
      | None => or_zero (cj_account_balance counterparty)
      end
  | _ => or_zero (cj_account_balance counterparty)
  end.

(** [this.cacheTTL] *)
Definition cacheTTL : Z := 300.

(** [getCounterpartyByPhone].  [t_get] and [t_set] are the clock readings
    of [Cache.get] and [Cache.set]; the cached payload, an object, is
    always truthy. *)
Definition getCounterpartyByPhone (net : network) (t_get t_set : Z)
    (ph : string) (useCache : bool) (c : gmap string (Cache.doc details))
  : option details * gmap string (Cache.doc details) :=
  let cacheKey := "counterparty:" ++ ph in
  match (if useCache then Cache.get t_get cacheKey c else None) with
  | Some cached => (Some cached, c)
  | None =>
      match findCounterpartyByPhone net ph with
      | None => (None, c)
      | Some basicInfo =>
          match bi_id basicInfo with
          | EmptyString => (None, c)
          | _ =>
              let fullDetails := getCounterpartyDetails net (bi_id basicInfo) in
              match fullDetails with
              | Some d =>
                  if useCache
                  then (fullDetails, (Cache.set t_set cacheKey d cacheTTL c).1)
                  else (fullDetails, c)
              | None => (fullDetails, c)
              end
          end
      end
  end.

End MoySklad.

(* ===================================================================== *)
(** ** The delivery queue (src/utils/rateLimiter.js) *)
(* ===================================================================== *)

Module RateLimiter.
Section WithResults.

(** Values tasks resolve with, and errors they throw. *)
Context {V E : Type}.

Inductive outcome := Resolved (v : V) | Threw (e : E).

(** A submitted task together with what the event loop does while it is
    served: [who] names the promise returned by [schedule] (its [resolve]
    and [reject] pair); the task settles [run_ms] after it is called, with
    [yields]; a timer armed while this entry is served fires [wait_lag]
    (the pause at the cap) or [gap_lag] (the 40 ms pause) later than asked
    for, never earlier. *)
Record entry := Entry {
  who : nat;
  run_ms : N;
  yields : outcome;
  wait_lag : N;
  gap_lag : N
}.

(** The fields of a [RateLimiter]. *)
Record limiter := Limiter {
  maxPerSecond : Z;
  queue : list entry;
  processing : bool;
  sentInCurrentSecond : Z;
  currentSecondStart : Z
}.

(** The limiter in its surroundings: the clock read by [Date.now()], the
    calls [task()] made so far (newest first, with the time of the call)
    and the promises settled so far (oldest first). *)
Record world := World {
  lim : limiter;
  clock : Z;
  dispatched : list (Z * nat);
  settled : list (nat * outcome)
}.

(** [new RateLimiter(maxPerSecond)] at time [t]. *)
Definition create (cap : Z) (t : Z) : world :=
  World (Limiter cap [] false 0 t) t [] [].

(** [await this.sleep(ms)]: a timer never fires early, and a delay that
    is not positive fires at once. *)
Definition sleep (ms : Z) (lag : N) (t : Z) : Z :=
  t + Z.max 0 ms + Z.of_N lag.

(** [schedule(task)] up to the point where the loop takes over:
    [this.queue.push(...)], and, when nothing is processing, the entry of
    [processQueue] ([this.processing = true]). *)
Definition schedule (e : entry) (w : world) : world :=
  let l := lim w in
  let pushed := queue l ++ [e] in
  World (Limiter (maxPerSecond l) pushed
                 (if processing l then processing l else true)
                 (sentInCurrentSecond l) (currentSecondStart l))
        (clock w) (dispatched w) (settled w).

(** One turn of [while (this.queue.length > 0) { ... }] for a queue whose
    head is [e]. *)
Definition iteration (e : entry) (rest : list entry) (w : world) : world :=
  let l := lim w in
  let now := clock w in
  let elapsed := now - currentSecondStart l in
  (* Reset counter every second *)
  let '(sent, start) :=
    if 1000 <=? elapsed then (0, now)
    else (sentInCurrentSecond l, currentSecondStart l) in
  (* If we've hit the limit, wait until next second *)
  let '(sent, start, t) :=
    if maxPerSecond l <=? sent
    then let t' := sleep (1000 - elapsed) (wait_lag e) now in (0, t', t')
    else (sent, start, now) in
  (* Process next task *)
  let called := t in
  let t := t + Z.of_N (run_ms e) in
  let sent := match yields e with Resolved _ => sent + 1 | Threw _ => sent end in
  (* Small delay between messages *)
  let t := sleep 40 (gap_lag e) t in
  World (Limiter (maxPerSecond l) rest true sent start)
        t ((called, who e) :: dispatched w) (settled w ++ [(who e, yields e)]).

(** The [schedule] calls that happen while the loop is suspended: the
    submissions, in the order of their times, that are due at the clock. *)
Fixpoint arrive (pending : list (Z * entry)) (w : world)
  : list (Z * entry) * world :=
  match pending with
  | (t, e) :: later =>
      if t <=? clock w then arrive later (schedule e w) else (pending, w)
  | [] => ([], w)
  end.

(** [this.processing = false] after the loop. *)
Definition stop (w : world) : world :=
  let l := lim w in
  World (Limiter (maxPerSecond l) (queue l) false
                 (sentInCurrentSecond l) (currentSecondStart l))
        (clock w) (dispatched w) (settled w).

Definition at_time (t : Z) (w : world) : world :=
  World (lim w) (Z.max (clock w) t) (dispatched w) (settled w).

(** The limiter serving the submissions [pending] (time of the
    [schedule] call, entry).  Each turn either serves the head of the
    queue or, the queue being empty, leaves the loop and sits idle until
    the next [schedule] call starts [processQueue] again. *)
Fixpoint run (fuel : nat) (pending : list (Z * entry)) (w : world) : world :=
  match fuel with
  | O => w
  | S fuel' =>
      let '(later, w1) := arrive pending w in
      match queue (lim w1) with
      | e :: rest => run fuel' later (iteration e rest w1)
      | [] =>
          match later with
          | [] => stop w1
          | (t, e) :: later' =>
              run fuel' later' (schedule e (at_time t (stop w1)))
          end
      end
  end.

(** Turns that suffice for [pending]: one to wake up and one to serve per
    submission, and one to leave the loop. *)
Definition enough (pending : list (Z * entry)) (w : world) : nat :=
  (2 * length pending + length (queue (lim w)) + 1)%nat.

(** How many calls fall into the window [from, from + 1000). *)
Definition in_window (from : Z) (d : Z * nat) : bool :=
  ((from <=? d.1) && (d.1 <? from + 1000))%bool.

Definition calls_in_window (from : Z) (w : world) : nat :=
  length (List.filter (in_window from) (dispatched w)).

(** What a submitter is owed: its promise, settled with its own task's
    outcome. *)
Definition owed (e : entry) : nat * outcome := (who e, yields e).

(** A record of calls, newest first, in which consecutive calls are at
    least 40 ms apart. *)
Fixpoint spaced (calls : list (Z * nat)) : Prop :=
  match calls with
  | a :: rest =>
      match rest with
      | b :: _ => b.1 + 40 <= a.1
      | [] => True
      end /\ spaced rest
  | [] => True
  end.

(** The loop is at rest: the last call lies at least 40 ms back. *)
Definition rested (w : world) : Prop :=
  spaced (dispatched w) /\
  match dispatched w with
  | a :: _ => a.1 + 40 <= clock w
  | [] => True
  end.

End WithResults.
Arguments outcome : clear implicits.
Arguments entry : clear implicits.
Arguments limiter : clear implicits.
Arguments world : clear implicits.
End RateLimiter.

(* ===================================================================== *)
(** ** The daily reminder sweep (cron/sender.cron.js) *)
(* ===================================================================== *)

Module Reminder.
Import MoySklad.
Local Open Scope string_scope.

Record user := User {
  telegram_id : string;
  user_phone : string;
  first_name : string;
  last_name : string;
  is_active : bool;
  language : string;
  last_sent_at : option Z
}.

(** The [reason] strings of [processUser]. *)
Inductive reason := inactive | not_found | no_debt | send_failed | error.

(** [{ success: true, debtAmount }] or [{ success: false, reason }]. *)
Inductive result := Success (debtAmount : Q) | Failure (why : reason).

(** What the collaborators answer while one user is processed: the
    accounting API and the clock readings of the cache, whether the
    promise of [rateLimiter.schedule] resolves, and the time at which
    [user.save()] resolves ([None] when it rejects). *)
Record served := Served {
  net : network;
  t_get : Z;
  t_set : Z;
  delivered : bool;
  saved : option Z
}.

(** [processUser] *)
Definition processUser (u : user) (s : served)
    (c : gmap string (Cache.doc details))
  : result * user * gmap string (Cache.doc details) :=
  if negb (is_active u) then (Failure inactive, u, c)
  else
    let '(found, c') :=
      getCounterpartyByPhone (net s) (t_get s) (t_set s) (user_phone u) true c in
    match found with
    | None => (Failure not_found, u, c')
    | Some counterparty =>
        if Qle_bool 0 (balance counterparty) then (Failure no_debt, u, c')
        else
          let debtAmount := Qabs (balance counterparty) in
          let sent := delivered s in
          if sent then
            match saved s with
            | Some t =>
                (Success debtAmount,
                 User (telegram_id u) (user_phone u) (first_name u)
                      (last_name u) (is_active u) (language u) (Some t),
                 c')
            | None => (Failure error, u, c')
            end
          else (Failure send_failed, u, c')
    end.

(** The three counters of [execute]. *)
Record counters := Counters { sent : nat; skipped : nat; failed : nat }.

(** The [if / else if / else] after each [processUser]. *)
Definition count (r : result) (n : counters) : counters :=
  match r with
  | Success _ => Counters (S (sent n)) (skipped n) (failed n)
  | Failure why =>
      match why with
      | no_debt | inactive => Counters (sent n) (S (skipped n)) (failed n)
      | _ => Counters (sent n) (skipped n) (S (failed n))
      end
  end.

(** [for (const user of users) { ... }] *)
Fixpoint sweep (users : list (user * served)) (n : counters)
    (c : gmap string (Cache.doc details))
  : counters * list (user * result) * gmap string (Cache.doc details) :=
  match users with
  | [] => (n, [], c)
  | (u, s) :: more =>
      let '(r, u', c1) := processUser u s c in
      let '(n', log, c2) := sweep more (count r n) c1 in
      (n', (u', r) :: log, c2)
  end.

(** The sender object; [cronJob] plays no part in a tick. *)
Record sender := Sender { isRunning : bool }.

(** What one tick meets: the wall clock as [HH:mm], the configured time
    ([None] when [Settings.get] rejects), the active users with what
    serves them ([None] when the query rejects), and whether
    [Statistics.updateStats] resolves. *)
Record tick := Tick {
  currentTime : string;
  globalSendTime : option string;
  activeUsers : option (list (user * served));
  statsSaved : bool
}.

(** What one tick did: the users it processed with their results, the
    totals it logged, and the [messages_sent_today] it wrote. *)
Record report := Report {
  processed : list (user * result);
  summary : option counters;
  messages_sent_today : option nat
}.

Definition nothing_done : report := Report [] None None.

(** The guard at the top of [execute]: [None] when the tick is skipped,
    otherwise the sender with [isRunning] set. *)
Definition enter (s : sender) : option sender :=
  if isRunning s then None else Some (Sender true).

(** [this.isRunning = false], in [finally] and before the early returns. *)
Definition leave (s : sender) : sender := Sender false.

(** The [try] block of [execute]. *)
Definition attempt (env : tick) (c : gmap string (Cache.doc details))
  : report * gmap string (Cache.doc details) :=
  match globalSendTime env with
  | None => (nothing_done, c)
  | Some target =>
      if negb (String.eqb (currentTime env) target) then (nothing_done, c)
      else
        match activeUsers env with
        | None => (nothing_done, c)
        | Some [] => (nothing_done, c)
        | Some users =>
            let '(n, log, c') := sweep users (Counters 0 0 0) c in
            if statsSaved env
            then (Report log (Some n) (Some (sent n)), c')
            else (Report log None None, c')
        end
  end.

(** [execute] *)
Definition execute (s : sender) (env : tick)
    (c : gmap string (Cache.doc details))
  : sender * report * gmap string (Cache.doc details) :=
  match enter s with
  | None => (s, nothing_done, c)
  | Some s1 =>
      let '(r, c') := attempt env c in
      (leave s1, r, c')
  end.

(** Ticks that overlap: a tick passes the guard before its first [await],
    and a sweep that passed it ends in [finally] some time later.
    [sweeping] counts the calls of [execute] that are between the two. *)
Inductive event := Fires | Ends.

Record cron := Cron { flag : sender; sweeping : nat }.

Definition react (ev : event) (k : cron) : cron :=
  match ev with
  | Fires =>
      match enter (flag k) with
      | None => k
      | Some s1 => Cron s1 (S (sweeping k))
      end
  | Ends =>
      match sweeping k with
      | O => k
      | S n => Cron (leave (flag k)) n
      end
  end.

Definition history (evs : list event) (k : cron) : cron :=
  fold_left (fun k ev => react ev k) evs k.

Definition started : cron := Cron (Sender false) 0.

(** The three totals a result can be counted in. *)
Definition is_sent (r : result) : bool :=
  match r with Success _ => true | Failure _ => false end.

Definition is_skipped (r : result) : bool :=
  match r with
  | Failure inactive | Failure no_debt => true
  | _ => false
  end.

Definition is_failed (r : result) : bool :=
  match r with
  | Failure not_found | Failure send_failed | Failure error => true
  | _ => false
  end.

Definition tally (f : result -> bool) (log : list (user * result)) : nat :=
  length (List.filter (fun ur => f ur.2) log).

End Reminder.

(* ===================================================================== *)
(** ** Settings (models/Settings.js) *)
(* ===================================================================== *)

Module Settings.
Section WithValue.

(** [value] is [Mixed]. *)
Context {V : Type}.

(** One document of the [settings] collection; [key] is unique. *)
Record setting := Setting { value : V; description : string; updatedAt : Z }.

(** [settingsSchema.statics.get]: [setting ? setting.value : defaultValue]. *)
Definition get (key : string) (defaultValue : V) (s : gmap string setting) : V :=
  match s !! key with
  | Some d => value d
  | None => defaultValue
  end.

(** [settingsSchema.statics.set], run when [new Date()] reads [now]. *)
Definition set (now : Z) (key : string) (v : V) (descr : string)
    (s : gmap string setting) : gmap string setting * V :=
  (<[key := Setting v descr now]> s, v).


End WithValue.
Arguments setting : clear implicits.
End Settings.

(* ===================================================================== *)
(** ** Times of day (cron/sender.cron.js, routes/admin.routes.js) *)
(* ===================================================================== *)

Module Clock.
Import Phone.
Local Open Scope string_scope.

(** [String(n)] for a count. *)
Definition String_of (n : nat) : string :=
  NilZero.string_of_uint (Nat.to_uint n).

(** [s.padStart(target, fill)] for a fill of one character. *)
Definition padStart (target : nat) (fill : ascii) (s : string) : string :=
  string_of_list_ascii (repeat fill (target - String.length s)) ++ s.

(** [getCurrentTime], given what [getHours()] and [getMinutes()] return
    for the wall clock in Asia/Tashkent. *)
Definition getCurrentTime (hours minutes : nat) : string :=
  padStart 2 "0" (String_of hours) ++ ":" ++ padStart 2 "0" (String_of minutes).

Definition between (lo hi : nat) (c : ascii) : bool :=
  let n := nat_of_ascii c in (Nat.leb lo n && Nat.leb n hi)%bool.

(** [/^([0-1]?[0-9]|2[0-3]):[0-5][0-9]$/.test(v)], the test of the
    [send_time] validator and of both admin routes. *)
Definition valid_time (v : string) : bool :=
  match v with
  | String h (String c (String m1 (String m2 EmptyString))) =>
      (is_digit h && Ascii.eqb c ":" && between 48 53 m1 && is_digit m2)%bool
  | String h1 (String h2 (String c (String m1 (String m2 EmptyString)))) =>
      (((between 48 49 h1 && is_digit h2) ||
        (Ascii.eqb h1 "2" && between 48 51 h2))
       && Ascii.eqb c ":" && between 48 53 m1 && is_digit m2)%bool
  | _ => false
  end.

(** The test of [POST /admin/settings/send-time]:
    [!send_time || !regex.test(send_time)] rejects. *)
Definition accepts_send_time (send_time : string) : bool :=
  match send_time with
  | EmptyString => false
  | _ => valid_time send_time
  end.

(** [POST /admin/settings/send-time] on the settings collection: an
    accepted time is stored under [GLOBAL_SEND_TIME]. *)
Definition post_send_time (now : Z) (send_time : string)
    (s : gmap string (Settings.setting string))
  : gmap string (Settings.setting string) :=
  if accepts_send_time send_time
  then (Settings.set now "GLOBAL_SEND_TIME" send_time
          "Глобальное время отправки напоминаний" s).1
  else s.

(** The configured time as [execute] reads it:
    [Settings.get("GLOBAL_SEND_TIME", process.env.GLOBAL_SEND_TIME || "09:00")]. *)
Definition configured_time (env_time : string)
    (s : gmap string (Settings.setting string)) : string :=
  Settings.get "GLOBAL_SEND_TIME" (MoySklad.or_string env_time "09:00") s.

End Clock.

(* ===================================================================== *)
(** ** The normaliser of the phone test script *)
(* ===================================================================== *)

Module PhoneScript.
Import Phone.
Local Open Scope string_scope.

(** White space as [trim] sees it, within ASCII. *)
Definition is_white (c : ascii) : bool :=
  let n := nat_of_ascii c in (Nat.eqb n 32 || (Nat.leb 9 n && Nat.leb n 13))%bool.

Fixpoint trimStart (s : string) : string :=
  match s with
  | String c r => if is_white c then trimStart r else s
  | EmptyString => EmptyString
  end.

Fixpoint trimEnd (s : string) : string :=
  match s with
  | String c r =>
      match trimEnd r with
      | EmptyString => if is_white c then EmptyString else String c EmptyString
      | r' => String c r'
      end
  | EmptyString => EmptyString
  end.

(** [s.trim()] *)
Definition trim (s : string) : string := trimEnd (trimStart s).

(** [s.replace(/[^\d+]/g, "")] *)
Fixpoint keep_digits_plus (s : string) : string :=
  match s with
  | EmptyString => EmptyString
  | String c r =>
      if (is_digit c || Ascii.eqb c "+")%bool
      then String c (keep_digits_plus r)
      else keep_digits_plus r
  end.

(** [normalizePhone] of the script. *)
Definition normalizePhone (phone : string) : string :=
  let normalized := trim phone in
  let normalized := keep_digits_plus normalized in
  if (startsWith "998" normalized && negb (startsWith "+998" normalized))%bool
  then "+" ++ normalized
  else normalized.

End PhoneScript.

(* ===================================================================== *)
(** ** Debts and statistics (src/services/moysklad.service.js) *)
(* ===================================================================== *)

Module Balances.
Import MoySklad.
Local Open Scope string_scope.

(** [isDebtor(phone)] *)
Definition isDebtor (net : network) (t_get t_set : Z) (ph : string)
    (c : gmap string (Cache.doc details))
  : bool * gmap string (Cache.doc details) :=
  let '(counterparty, c') := getCounterpartyByPhone net t_get t_set ph true c in
  match counterparty with
  | None => (false, c')
  | Some cp => (Qltb (balance cp) 0, c')
  end.

(** [getDebtAmount(phone)] *)
Definition getDebtAmount (net : network) (t_get t_set : Z) (ph : string)
    (c : gmap string (Cache.doc details))
  : Q * gmap string (Cache.doc details) :=
  let '(counterparty, c') := getCounterpartyByPhone net t_get t_set ph true c in
  match counterparty with
  | None => (0%Q, c')
  | Some cp =>
      if Qle_bool 0 (balance cp) then (0%Q, c')
      else (Qabs (balance cp), c')
  end.




(** A page of [/entity/counterparty?limit=..&offset=..]: [rows], and
    [meta.size] when [meta] is there and has one. *)
Record page_json := PageJson {
  page_rows : option (list counterparty_json);
  page_size : option Z
}.

(** [getAllCounterparties(limit, offset)]: any failure gives
    [{ rows: [], meta: {} }]. *)
Definition getAllCounterparties (page : Z -> Z -> reply page_json)
    (limit offset : Z) : page_json :=
  match page limit offset with
  | Unreachable => PageJson (Some []) None
  | NotOk _ => PageJson (Some []) None
  | Json None => PageJson (Some []) None
  | Json (Some data) => data
  end.

(** [for (const counterparty of data.rows)]: the details of each row
    that has some.  [getCounterpartyDetails] catches its own exceptions. *)
Fixpoint gather (net : network) (rows : list counterparty_json)
    (allCounterparties : list details) : list details :=
  match rows with
  | [] => allCounterparties
  | counterparty :: more =>
      match getCounterpartyDetails net (cj_id counterparty) with
      | Some d => gather net more (allCounterparties ++ [d])
      | None => gather net more allCounterparties
      end
  end.

(** [const limit = 1000] *)
Definition page_limit : Z := 1000.

(** [while (hasMore)] of [getAllCounterpartiesWithBalances], for at most
    [fuel] pages; [None] when the walk has not ended by then. *)
Fixpoint walk (fuel : nat) (net : network) (page : Z -> Z -> reply page_json)
    (offset : Z) (allCounterparties : list details) : option (list details) :=
  match fuel with
  | O => None
  | S fuel' =>
      let data := getAllCounterparties page page_limit offset in
      match page_rows data with
      | None => Some allCounterparties
      | Some [] => Some allCounterparties
      | Some rows =>
          let allCounterparties := gather net rows allCounterparties in
          let offset := offset + page_limit in
          match page_size data with
          | Some size =>
              if (size <? page_limit)%Z then Some allCounterparties
              else walk fuel' net page offset allCounterparties
          | None => walk fuel' net page offset allCounterparties
          end
      end
  end.

(** [getAllCounterpartiesWithBalances()] *)
Definition getAllCounterpartiesWithBalances (fuel : nat) (net : network)
    (page : Z -> Z -> reply page_json) : option (list details) :=
  walk fuel net page 0 [].

(** Whether the walk ends with the page at [offset]. *)
Definition last_page (page : Z -> Z -> reply page_json) (offset : Z) : bool :=
  let data := getAllCounterparties page page_limit offset in
  match page_rows data with
  | None => true
  | Some [] => true
  | Some _ =>
      match page_size data with
      | Some size => (size <? page_limit)%Z
      | None => false
      end
  end.




End Balances.

(* ===================================================================== *)
(** ** The rest of the delivery queue (src/utils/rateLimiter.js) *)
(* ===================================================================== *)

Module Queue.
Import RateLimiter.
Section WithResults.
Context {V E : Type}.



Definition resolved (o : outcome V E) : bool :=
  match o with Resolved _ => true | Threw _ => false end.

(** The calls made so far, oldest first, each with the outcome its
    promise was settled with. *)
Definition calls (w : world V E) : list ((Z * nat) * (nat * outcome V E)) :=
  combine (rev (dispatched w)) (settled w).

(** The calls at or after [since] whose task resolved. *)
Definition resolved_since (since : Z) (w : world V E) : nat :=
  length (List.filter (fun c => ((since <=? c.1.1) && resolved c.2.2)%bool)
                      (calls w)).

(** The times at which a queue of throwing tasks is called when nothing
    holds the loop back: each [run_ms + 40 + gap_lag] after the one
    before. *)
Fixpoint unchecked_times (t : Z) (es : list (entry V E)) : list Z :=
  match es with
  | [] => []
  | e :: more =>
      t :: unchecked_times (t + Z.of_N (run_ms e) + 40 + Z.of_N (gap_lag e)) more
  end.

(** What the counter of the limiter stands for: the calls are spaced and
    as many as the settled promises, the counting window began in the
    past, and the counter holds the number of resolved calls made since
    it began, which is at most the cap (or one, for a cap below one). *)
Definition counted (w : world V E) : Prop :=
  rested w /\
  length (dispatched w) = length (settled w) /\
  currentSecondStart (lim w) <= clock w /\
  0 <= sentInCurrentSecond (lim w) <= Z.max 1 (maxPerSecond (lim w)) /\
  Z.of_nat (resolved_since (currentSecondStart (lim w)) w)
  = sentInCurrentSecond (lim w).

End WithResults.
End Queue.

(* ===================================================================== *)
(** ** Manual reminders and broadcasts (routes/admin.routes.js) *)
(* ===================================================================== *)

Module Admin.
Import MoySklad.
Local Open Scope string_scope.

(** [sentCount] and [failedCount] of [POST /admin/send-reminders]. *)
Record manual_counts := ManualCounts { sentCount : nat; failedCount : nat }.

(** The body of the route's [for (const user of users)]: a lookup that
    passes over the cache, and a send through the rate limiter for a
    negative balance. *)
Definition remind_one (u : Reminder.user) (s : Reminder.served)
    (n : manual_counts) (c : gmap string (Cache.doc details))
  : manual_counts * gmap string (Cache.doc details) :=
  let '(counterparty, c') :=
    getCounterpartyByPhone (Reminder.net s) (Reminder.t_get s) (Reminder.t_set s)
                           (Reminder.user_phone u) false c in
  match counterparty with
  | Some cp =>
      if Qltb (balance cp) 0 then
        if Reminder.delivered s
        then (ManualCounts (S (sentCount n)) (failedCount n), c')
        else (ManualCounts (sentCount n) (S (failedCount n)), c')
      else (n, c')
  | None => (n, c')
  end.

(** [POST /admin/send-reminders] over the users of
    [User.find({ is_active: true })]. *)
Fixpoint sendReminders (users : list (Reminder.user * Reminder.served))
    (n : manual_counts) (c : gmap string (Cache.doc details))
  : manual_counts * gmap string (Cache.doc details) :=
  match users with
  | [] => (n, c)
  | (u, s) :: more =>
      let '(n', c') := remind_one u s n c in
      sendReminders more n' c'
  end.

(** Whether a lookup that passes over the cache shows a debt. *)
Definition owes_now (us : Reminder.user * Reminder.served) : bool :=
  match findCounterpartyByPhone (Reminder.net us.2) (Reminder.user_phone us.1)
          ≫= (fun b => getCounterpartyDetails (Reminder.net us.2) (bi_id b)) with
  | Some cp => Qltb (balance cp) 0
  | None => false
  end.

Inductive broadcast_status := draft | sending | completed | failed.

Inductive audience := all | active | debtors | specific.

Record broadcast := Broadcast {
  title : string;
  message_uz : string;
  message_ru : string;
  status : broadcast_status;
  target_users : audience;
  sent_count : nat;
  failed_count : nat;
  total_count : nat;
  sent_at : option Z
}.

Definition with_status (st : broadcast_status) (b : broadcast) : broadcast :=
  Broadcast (title b) (message_uz b) (message_ru b) st (target_users b)
            (sent_count b) (failed_count b) (total_count b) (sent_at b).

(** [for (const user of allUsers)] with [isDebtor(user.phone)]. *)
Fixpoint pick_debtors (allUsers : list (Reminder.user * Reminder.served))
    (c : gmap string (Cache.doc details))
  : list (Reminder.user * Reminder.served) * gmap string (Cache.doc details) :=
  match allUsers with
  | [] => ([], c)
  | (u, s) :: more =>
      let '(debtor, c1) :=
        Balances.isDebtor (Reminder.net s) (Reminder.t_get s) (Reminder.t_set s)
                          (Reminder.user_phone u) c in
      let '(picked, c2) := pick_debtors more c1 in
      (if debtor then (u, s) :: picked else picked, c2)
  end.

(** The sending loop: [sent_count++] when the promise of
    [rateLimiter.schedule] resolves, [failed_count++] when it rejects. *)
Fixpoint deliver (users : list (Reminder.user * Reminder.served))
    (b : broadcast) : broadcast :=
  match users with
  | [] => b
  | (u, s) :: more =>
      deliver more
        (if Reminder.delivered s
         then Broadcast (title b) (message_uz b) (message_ru b) (status b)
                        (target_users b) (S (sent_count b)) (failed_count b)
                        (total_count b) (sent_at b)
         else Broadcast (title b) (message_uz b) (message_ru b) (status b)
                        (target_users b) (sent_count b) (S (failed_count b))
                        (total_count b) (sent_at b))
  end.

(** [sendBroadcast(broadcastId)].  [found] is what [findById] gives,
    [activeUsers] what [User.find({ is_active: true })] gives ([None]
    when it rejects), [t_done] the clock at the end.  Saving the
    broadcast is taken to succeed. *)
Definition sendBroadcast (found : option broadcast)
    (activeUsers : option (list (Reminder.user * Reminder.served)))
    (t_done : Z) (c : gmap string (Cache.doc details))
  : option broadcast * gmap string (Cache.doc details) :=
  match found with
  | None => (None, c)
  | Some b =>
      let chosen :=
        match target_users b with
        | all => option_map (fun us => (us, c)) activeUsers
        | active => option_map (fun us => (us, c)) activeUsers
        | debtors => option_map (fun us => pick_debtors us c) activeUsers
        | specific => Some ([], c)
        end in
      match chosen with
      | None => (Some (with_status failed b), c)
      | Some (users, c') =>
          let b := Broadcast (title b) (message_uz b) (message_ru b) (status b)
                             (target_users b) (sent_count b) (failed_count b)
                             (length users) (sent_at b) in
          let b := deliver users b in
          (Some (Broadcast (title b) (message_uz b) (message_ru b) completed
                           (target_users b) (sent_count b) (failed_count b)
                           (total_count b) (Some t_done)),
           c')
      end
  end.

(** [POST /admin/broadcast/:id/send]: only a draft is sent. *)
Definition post_broadcast_send (found : option broadcast)
    (activeUsers : option (list (Reminder.user * Reminder.served)))
    (t_done : Z) (c : gmap string (Cache.doc details))
  : option broadcast * gmap string (Cache.doc details) :=
  match found with
  | None => (None, c)
  | Some b =>
      match status b with
      | draft => sendBroadcast (Some (with_status sending b)) activeUsers t_done c
      | _ => (Some b, c)
      end
  end.

End Admin.

(* ===================================================================== *)
(** ** Sample data *)
(* ===================================================================== *)

Module Samples.
Import MoySklad.
Local Open Scope string_scope.

Definition acme : counterparty_json :=
  CounterpartyJson "cp-1" "Acme" "+998901234567" false (Some (-300)).

Definition acme_row : report_row :=
  ReportRow (Some "https://api.example/entity/counterparty/cp-1")
            (Some (-5000000)).

(** Every endpoint answers; the report has a row for [cp-1]. *)
Definition net_up : network :=
  Network (fun _ => Json (Some (SearchJson (Some [acme]))))
          (fun _ => Json (Some acme))
          (Json (Some (ReportJson (Some [acme_row])))).

(** The report endpoint answers 500. *)
Definition net_report_down : network :=
  Network (fun _ => Json (Some (SearchJson (Some [acme]))))
          (fun _ => Json (Some acme))
          (NotOk 500).

(** The search finds nobody. *)
Definition net_nobody : network :=
  Network (fun _ => Json (Some (SearchJson (Some []))))
          (fun _ => NotOk 404)
          (Json (Some (ReportJson (Some [])))).

(** A payload cached earlier, when the balance was still zero. *)
Definition acme_stale : details :=
  Details "cp-1" "Acme" "+998901234567" 0 Settled false.

Definition warm_cache : gmap string (Cache.doc details) :=
  (Cache.set 1000 "counterparty:+998901234567" acme_stale cacheTTL ∅).1.

(** A task that does nothing, submitted for promise [i]. *)
Definition noop (i : nat) : RateLimiter.entry unit unit :=
  RateLimiter.Entry i 0 (RateLimiter.Resolved tt) 0 0.

(** [n] tasks that do nothing, all submitted at time [t]. *)
Definition burst (t : Z) (n : nat) : list (Z * RateLimiter.entry unit unit) :=
  map (fun i => (t, noop i)) (seq 0 n).

(** Three sends; the second one throws. *)
Definition mixed : list (Z * RateLimiter.entry nat string) :=
  [ (0, RateLimiter.Entry 0 5 (RateLimiter.Resolved 10%nat) 0 0);
    (0, RateLimiter.Entry 1 5 (RateLimiter.Threw "blocked") 0 1);
    (3, RateLimiter.Entry 2 5 (RateLimiter.Resolved 30%nat) 0 2) ].

Definition debtor_user : Reminder.user :=
  Reminder.User "tg-1" "+998901234567" "Ali" "" true "uz" None.

Definition stranger : Reminder.user :=
  Reminder.User "tg-2" "+998900000000" "Vali" "" true "uz" None.

Definition serve_debtor : Reminder.served :=
  Reminder.Served net_up 2000 2100 true (Some 2200).

Definition serve_nobody : Reminder.served :=
  Reminder.Served net_nobody 3000 3100 true (Some 3200).

(** A tick at the configured time. *)
Definition at_nine (users : list (Reminder.user * Reminder.served))
  : Reminder.tick :=
  Reminder.Tick "09:00" (Some "09:00") (Some users) true.

(** A hundred tasks that throw at once, submitted together. *)
Definition throwers (n : nat) : list (RateLimiter.entry unit string) :=
  map (fun i => RateLimiter.Entry i 0 (RateLimiter.Threw "blocked") 0 0)
      (seq 0 n).

(** One page holding the sample counterparty; any further page fails. *)
Definition one_page (limit offset : Z) : MoySklad.reply Balances.page_json :=
  if (offset =? 0)%Z
  then MoySklad.Json (Some (Balances.PageJson (Some [acme]) (Some 1)))
  else MoySklad.NotOk 500.

(** A broadcast for chosen phones, about to be sent. *)
Definition promo : Admin.broadcast :=
  Admin.Broadcast "Promo" "Salom" "Привет" Admin.sending Admin.specific
                  0 0 0 None.

End Samples.

(* ===================================================================== *)
(** * Properties *)
(* ===================================================================== *)

(** ** Phone numbers *)

Module PhoneFacts.
Import Phone.
Local Open Scope string_scope.

Example normalize_spaced :
  normalizePhone "+998 (97) 912-61-61" = "+998979126161".
Proof. reflexivity. Qed.

Example normalize_national :
  normalizePhone "97 912 61 61" = "+998979126161".
Proof. reflexivity. Qed.

Example normalize_foreign :
  normalizePhone "+7 495 123" = "+7495123".
Proof. reflexivity. Qed.

Lemma strip_all_digits (s : string) :
  all_chars is_digit (strip_non_digits s) = true.
Proof.
  induction s as [|c r IH]; simpl; [reflexivity|].
  destruct (is_digit c) eqn:Hc; simpl; [rewrite Hc; exact IH | exact IH].
Qed.

Lemma strip_of_digits (s : string) :
  all_chars is_digit s = true -> strip_non_digits s = s.
Proof.
  induction s as [|c r IH]; simpl; [reflexivity|].
  intros [Hc Hr]%andb_prop. rewrite Hc, (IH Hr). reflexivity.
Qed.

Lemma strip_twice (s : string) :
  strip_non_digits (strip_non_digits s) = strip_non_digits s.
Proof. apply strip_of_digits, strip_all_digits. Qed.

Lemma digits_not_plus (d : string) :
  all_chars is_digit d = true -> startsWith "+" d = false.
Proof.
  destruct d as [|c r]; cbn [startsWith all_chars]; [reflexivity|].
  intros [Hc _]%andb_prop.
  destruct (Ascii.eqb "+" c) eqn:Heq; [|reflexivity].
  apply Ascii.eqb_eq in Heq. subst c. discriminate Hc.
Qed.

Lemma startsWith_998_inv (s : string) :
  startsWith "998" s = true -> exists r, s = "998" ++ r.
Proof.
  destruct s as [|a [|b [|c r]]]; cbn [startsWith]; try discriminate;
    try (rewrite ?andb_false_r; discriminate).
  rewrite andb_true_r.
  intros [Ha [Hb Hc]%andb_prop]%andb_prop.
  apply Ascii.eqb_eq in Ha, Hb, Hc. subst. exists r. reflexivity.
Qed.

Lemma prefixed_input_digits (p : string) :
  prefixed_input p = true -> startsWith "998" (strip_non_digits p) = true.
Proof.
  assert (Hkey : forall r, startsWith "998" r = true ->
                           startsWith "998" (strip_non_digits r) = true).
  { intros r [t ->]%startsWith_998_inv. reflexivity. }
  unfold prefixed_input.
  destruct p as [|c r]; [discriminate|].
  destruct (Ascii.eqb c "+") eqn:Hc.
  - apply Ascii.eqb_eq in Hc. subst c.
    intros [H _]%andb_prop. simpl. apply Hkey, H.
  - assert (Hgen : (startsWith "998" (String c r) &&
                    all_chars phone_char (String c r))%bool = true ->
                   startsWith "998" (strip_non_digits (String c r)) = true).
    { intros [H _]%andb_prop. apply Hkey, H. }
    destruct c as [[] [] [] [] [] [] [] []]; try exact Hgen; discriminate Hc.
Qed.

Lemma valid_phone_intro (national : string) :
  String.length national = 9%nat ->
  all_chars is_digit national = true ->
  valid_phone ("+998" ++ national) = true.
Proof.
  intros Hl Hd.
  change (valid_phone ("+998" ++ national))
    with (Nat.eqb (String.length national) 9
          && all_chars is_digit national)%bool.
  rewrite Hl, Hd. reflexivity.
Qed.

(** C10.  [normalizePhone] is idempotent: normalising a normalised phone
    changes nothing, for every input string. *)
Theorem normalizePhone_idempotent (p : string) :
  normalizePhone (normalizePhone p) = normalizePhone p.
Proof.
  unfold normalizePhone.
  pose proof (strip_all_digits p) as Hd.
  set (d := strip_non_digits p) in *.
  destruct (startsWith "998" d) eqn:H998.
  - change (strip_non_digits ("+" ++ d)) with (strip_non_digits d).
    rewrite (strip_of_digits d Hd), H998. reflexivity.
  - destruct (Nat.eqb (String.length d) 9) eqn:Hlen.
    + change (strip_non_digits ("+998" ++ d))
        with ("998" ++ strip_non_digits d).
      rewrite (strip_of_digits d Hd). reflexivity.
    + rewrite (digits_not_plus d Hd). cbn [negb].
      change (strip_non_digits ("+" ++ d)) with (strip_non_digits d).
      rewrite (strip_of_digits d Hd), H998, Hlen, (digits_not_plus d Hd).
      reflexivity.
Qed.

(** C4, as stated, fails: an input of the allowed characters with the
    prefix [+998] but too few national digits is returned with a [+] in
    front and does not match [^\+998\d{9}$]. *)
Lemma normalizePhone_short_number :
  prefixed_input "+998 12" = true /\
  normalizePhone "+998 12" = "+99812" /\
  valid_phone (normalizePhone "+998 12") = false.
Proof. repeat split; reflexivity. Qed.

(** C4, amended.  An input of digits, spaces, dashes and parentheses behind
    a leading [998] or [+998] that holds twelve digits in all is returned as
    [+998] followed by its nine national digits, and matches
    [^\+998\d{9}$]; an input whose digits do not begin with [998] and are
    exactly nine gets [+998] prepended, and matches the pattern too. *)
Theorem normalizePhone_canonical (p : string) :
  (prefixed_input p = true ->
   String.length (strip_non_digits p) = 12%nat ->
   exists national,
     strip_non_digits p = "998" ++ national /\
     normalizePhone p = "+998" ++ national /\
     valid_phone (normalizePhone p) = true) /\
  (startsWith "998" (strip_non_digits p) = false ->
   String.length (strip_non_digits p) = 9%nat ->
   normalizePhone p = "+998" ++ strip_non_digits p /\
   valid_phone (normalizePhone p) = true).
Proof.
  pose proof (strip_all_digits p) as Hd.
  unfold normalizePhone. split.
  - intros Hpre Hlen.
    pose proof (prefixed_input_digits p Hpre) as H998. rewrite H998.
    destruct (startsWith_998_inv _ H998) as [national Hn].
    exists national. rewrite Hn in *.
    split; [reflexivity|]. split; [reflexivity|].
    change ("+" ++ "998" ++ national) with ("+998" ++ national).
    apply valid_phone_intro.
    + change (String.length ("998" ++ national))
        with (S (S (S (String.length national)))) in Hlen. lia.
    + change (all_chars is_digit ("998" ++ national))
        with (all_chars is_digit national) in Hd. exact Hd.
  - intros H998 Hlen. rewrite H998, Hlen. cbn [Nat.eqb].
    split; [reflexivity|]. apply valid_phone_intro; assumption.
Qed.

Lemma normalizePhone_canonical_witness :
  (exists national,
     strip_non_digits "+998 (97) 912-61-61" = "998" ++ national /\
     normalizePhone "+998 (97) 912-61-61" = "+998" ++ national /\
     valid_phone (normalizePhone "+998 (97) 912-61-61") = true) /\
  (normalizePhone "97 912 61 61" = "+998" ++ strip_non_digits "97 912 61 61" /\
   valid_phone (normalizePhone "97 912 61 61") = true).
Proof.
  split.
  - apply (proj1 (normalizePhone_canonical "+998 (97) 912-61-61"));
      reflexivity.
  - apply (proj2 (normalizePhone_canonical "97 912 61 61")); reflexivity.
Defined.

End PhoneFacts.

(** ** The TTL cache *)

Module CacheFacts.
Import Cache.

Section WithPayload.
Context {V : Type}.
Implicit Types (c : gmap string (doc V)) (key : string) (v : V).

Lemma get_Some now key c v :
  get now key c = Some v <->
  exists d, c !! key = Some d /\ data d = v /\ now < expiresAt d.
Proof.
  unfold get. split.
  - destruct (c !! key) as [d|]; [|discriminate].
    destruct (now <? expiresAt d) eqn:Hlt; [|discriminate].
    intros [= <-]. exists d. apply Z.ltb_lt in Hlt. auto.
  - intros (d & -> & <- & Hlt). apply Z.ltb_lt in Hlt. rewrite Hlt. reflexivity.
Qed.

Lemma get_set_same now t0 key v ttl c :
  get now key (set t0 key v ttl c).1 =
  if now <? t0 + ttl * 1000 then Some v else None.
Proof. unfold get, set. cbn. rewrite lookup_insert_eq. reflexivity. Qed.

Lemma get_set_other now t0 key key' v ttl c :
  key <> key' -> get now key' (set t0 key v ttl c).1 = get now key' c.
Proof. intros Hne. unfold get, set. cbn. rewrite lookup_insert_ne; done. Qed.

Lemma set_returns t0 key v ttl c : (set t0 key v ttl c).2 = v.
Proof. reflexivity. Qed.

(** Sweeping expired documents, by hand or by the index, at a time that is
    not later than a read does not change what the read returns. *)
Lemma get_clearExpired now swept key c :
  swept <= now -> get now key (clearExpired swept c) = get now key c.
Proof.
  intros Hle. unfold get, clearExpired.
  destruct (c !! key) as [d|] eqn:Hk.
  - destruct (decide (expiresAt d < swept)) as [Hold|Hnew].
    + rewrite (proj2 (map_lookup_filter_None _ c key)).
      * destruct (Z.ltb_spec now (expiresAt d)); [lia|reflexivity].
      * right. intros d' Hd'. rewrite Hk in Hd'. injection Hd' as <-.
        cbn. tauto.
    + rewrite (proj2 (map_lookup_filter_Some _ c key d)); [reflexivity|].
      split; [exact Hk | exact Hnew].
  - rewrite (proj2 (map_lookup_filter_None _ c key)); [reflexivity|].
    left. exact Hk.
Qed.

Lemma get_ttlMonitor now swept key c :
  swept <= now -> get now key (ttlMonitor swept c) = get now key c.
Proof.
  intros Hle. unfold get, ttlMonitor.
  destruct (c !! key) as [d|] eqn:Hk.
  - destruct (decide (swept < expiresAt d)) as [Hnew|Hold].
    + rewrite (proj2 (map_lookup_filter_Some _ c key d)); [reflexivity|].
      split; [exact Hk | exact Hnew].
    + rewrite (proj2 (map_lookup_filter_None _ c key)).
      * destruct (Z.ltb_spec now (expiresAt d)); [lia|reflexivity].
      * right. intros d' Hd'. rewrite Hk in Hd'. injection Hd' as <-.
        cbn. tauto.
  - rewrite (proj2 (map_lookup_filter_None _ c key)); [reflexivity|].
    left. exact Hk.
Qed.

(** C1.  After [set(key, value, ttl)] at time [t0], a [get(key)] at a later
    time [t] returns [value] itself while fewer than [ttl] seconds have
    passed and nothing once [ttl] seconds have passed; and whatever the
    collection holds, a value returned by [get] comes from a document whose
    expiry is still in the future. *)
Theorem get_after_set t0 t key v ttl c :
  0 < ttl -> t0 <= t ->
  (t - t0 < ttl * 1000 -> get t key (set t0 key v ttl c).1 = Some v) /\
  (ttl * 1000 <= t - t0 -> get t key (set t0 key v ttl c).1 = None) /\
  (forall now k x c',
     get now k c' = Some x ->
     exists d, c' !! k = Some d /\ data d = x /\ now < expiresAt d).
Proof.
  intros _ _. repeat split.
  - intros Hlt. rewrite get_set_same.
    destruct (Z.ltb_spec t (t0 + ttl * 1000)); [reflexivity|lia].
  - intros Hge. rewrite get_set_same.
    destruct (Z.ltb_spec t (t0 + ttl * 1000)); [lia|reflexivity].
  - intros now k x c' H. apply get_Some, H.
Qed.

End WithPayload.

Lemma get_after_set_witness :
  get 1500 "k" (set 1000 "k" 7%nat 5 ∅).1 = Some 7%nat /\
  get 6000 "k" (set 1000 "k" 7%nat 5 ∅).1 = None.
Proof.
  split.
  - apply (get_after_set 1000 1500 "k" 7%nat 5 ∅); lia.
  - apply (get_after_set 1000 6000 "k" 7%nat 5 ∅); lia.
Defined.

End CacheFacts.

(** ** The accounting API client *)

Module MoySkladFacts.
Import MoySklad.
Local Open Scope string_scope.

Lemma Qltb_lt (x y : Q) : Qltb x y = true <-> (x < y)%Q.
Proof.
  unfold Qltb. rewrite Qlt_alt.
  destruct (x ?= y)%Q; split; congruence.
Qed.

Lemma div100_exact (raw : Z) : (div100 raw == inject_Z raw / 100)%Q.
Proof. unfold div100, Qeq, Qdiv, Qmult, Qinv, inject_Z. cbn. lia. Qed.

Lemma div100_sign (raw : Z) :
  ((div100 raw < 0)%Q <-> raw < 0) /\
  ((0 < div100 raw)%Q <-> 0 < raw) /\
  ((div100 raw == 0)%Q <-> raw = 0).
Proof. unfold div100, Qlt, Qeq. cbn. lia. Qed.

(** The status computed from a balance, on either path of
    [getCounterpartyDetails]. *)
Lemma status_by_sign (b : Q) :
  let s := if Qltb b 0 then Debtor else if Qltb 0 b then Creditor else Settled in
  (s = Debtor <-> (b < 0)%Q) /\
  (s = Creditor <-> (0 < b)%Q) /\
  (s = Settled <-> (b == 0)%Q).
Proof.
  cbv zeta.
  destruct (Qltb b 0) eqn:Hneg.
  - apply Qltb_lt in Hneg. repeat split; try discriminate; auto.
    + intros H. exfalso. apply (Qlt_irrefl b). eapply Qlt_trans; eauto.
    + intros H. rewrite H in Hneg. exfalso. apply (Qlt_irrefl 0), Hneg.
  - assert (Hnn : ~ (b < 0)%Q) by (rewrite <- Qltb_lt, Hneg; discriminate).
    destruct (Qltb 0 b) eqn:Hpos.
    + apply Qltb_lt in Hpos. repeat split; try discriminate; auto.
      * intros H; contradiction.
      * intros H. rewrite H in Hpos. exfalso. apply (Qlt_irrefl 0), Hpos.
    + assert (Hnp : ~ (0 < b)%Q) by (rewrite <- Qltb_lt, Hpos; discriminate).
      repeat split; try discriminate; auto; try contradiction.
      intros _. apply Qle_antisym; apply Qnot_lt_le; assumption.
Qed.

(** C7.  A record returned by [getCounterpartyDetails] carries the balance
    the API gave, in minor units, divided by 100 once; its status is
    [debtor] exactly when that balance is negative, [creditor] exactly when
    it is positive and [ok] exactly when it is zero. *)
Theorem details_balance_status (net : network) (cid : string) (r : details) :
  getCounterpartyDetails net cid = Some r ->
  exists counterparty,
    detail net cid = Json (Some counterparty) /\
    let raw := raw_balance counterparty (report net) cid in
    balance r = div100 raw /\
    (balance r == inject_Z raw / 100)%Q /\
    (status_of r = Debtor <-> (balance r < 0)%Q) /\
    (status_of r = Creditor <-> (0 < balance r)%Q) /\
    (status_of r = Settled <-> (balance r == 0)%Q).
Proof.
  unfold getCounterpartyDetails, raw_balance.
  destruct cid as [|a cid']; [discriminate|].
  set (cid := String a cid').
  destruct (detail net cid) as [| code | [counterparty|]]; try discriminate.
  intros H. exists counterparty. split; [reflexivity|]. cbv zeta.
  destruct (report net) as [| code | [reportData|]]; try discriminate.
  - injection H as <-. cbn [balance status_of].
    split; [reflexivity|]. split; [apply div100_exact|]. apply status_by_sign.
  - destruct (find_report (report_rows reportData) cid) as [row|];
      injection H as <-; cbn [balance status_of];
      (split; [reflexivity|]); (split; [apply div100_exact|]);
      apply status_by_sign.
Qed.

Lemma details_balance_status_witness :
  let r := Details "cp-1" "Acme" "+998901234567" (div100 (-5000000))
                   Debtor false in
  exists counterparty,
    detail Samples.net_up "cp-1" = Json (Some counterparty) /\
    let raw := raw_balance counterparty (report Samples.net_up) "cp-1" in
    balance r = div100 raw /\
    (balance r == inject_Z raw / 100)%Q /\
    (status_of r = Debtor <-> (balance r < 0)%Q) /\
    (status_of r = Creditor <-> (0 < balance r)%Q) /\
    (status_of r = Settled <-> (balance r == 0)%Q).
Proof.
  apply (details_balance_status Samples.net_up "cp-1"
           (Details "cp-1" "Acme" "+998901234567" (div100 (-5000000))
                    Debtor false)).
  reflexivity.
Defined.

(** C8.  When the detail fetch succeeds and the report endpoint answers
    with a status that is not 2xx, [getCounterpartyDetails] does not return
    [null]: it returns the counterparty with the balance of its first
    account (zero when absent) divided by 100, and the status of that
    balance. *)
Theorem details_report_fallback (net : network) (cid : string)
    (counterparty : counterparty_json) (code : Z) :
  cid <> "" ->
  detail net cid = Json (Some counterparty) ->
  report net = NotOk code ->
  exists r,
    getCounterpartyDetails net cid = Some r /\
    id r = cj_id counterparty /\
    name r = cj_name counterparty /\
    isBlocked r = cj_archived counterparty /\
    balance r = div100 (or_zero (cj_account_balance counterparty)) /\
    (balance r == inject_Z (or_zero (cj_account_balance counterparty)) / 100)%Q /\
    (status_of r = Debtor <-> (balance r < 0)%Q) /\
    (status_of r = Creditor <-> (0 < balance r)%Q) /\
    (status_of r = Settled <-> (balance r == 0)%Q).
Proof.
  intros Hcid Hdetail Hreport. unfold getCounterpartyDetails.
  destruct cid as [|a cid']; [congruence|].
  rewrite Hdetail, Hreport. eexists. split; [reflexivity|].
  cbn [id name isBlocked balance status_of].
  do 4 (split; [reflexivity|]). split; [apply div100_exact|].
  apply status_by_sign.
Qed.

Lemma details_report_fallback_witness :
  exists r,
    getCounterpartyDetails Samples.net_report_down "cp-1" = Some r /\
    id r = "cp-1" /\ name r = "Acme" /\ isBlocked r = false /\
    balance r = div100 (-300) /\
    (balance r == inject_Z (-300) / 100)%Q /\
    (status_of r = Debtor <-> (balance r < 0)%Q) /\
    (status_of r = Creditor <-> (0 < balance r)%Q) /\
    (status_of r = Settled <-> (balance r == 0)%Q).
Proof.
  apply (details_report_fallback Samples.net_report_down "cp-1"
           Samples.acme 500); [discriminate | reflexivity | reflexivity].
Defined.

Example fallback_is_debtor :
  getCounterpartyDetails Samples.net_report_down "cp-1" =
  Some (Details "cp-1" "Acme" "+998901234567" (div100 (-300)) Debtor false).
Proof. reflexivity. Qed.

Example report_row_wins :
  getCounterpartyDetails Samples.net_up "cp-1" =
  Some (Details "cp-1" "Acme" "+998901234567" (div100 (-5000000)) Debtor false).
Proof. reflexivity. Qed.

(** C2.  With [useCache = false] the lookup returns what the search
    followed by the detail fetch give, whatever the cache holds, and leaves
    the cache as it was. *)
Theorem uncached_lookup_is_fresh (net : network) (t_get t_set : Z)
    (ph : string) (c : gmap string (Cache.doc details)) :
  getCounterpartyByPhone net t_get t_set ph false c =
  (findCounterpartyByPhone net ph ≫=
     (fun basicInfo => getCounterpartyDetails net (bi_id basicInfo)),
   c).
Proof.
  unfold getCounterpartyByPhone.
  destruct (findCounterpartyByPhone net ph) as [basicInfo|]; [|reflexivity].
  cbn [mbind option_bind].
  destruct (bi_id basicInfo) as [|a i]; [reflexivity|].
  destruct (getCounterpartyDetails net (String a i)); reflexivity.
Qed.

(** An unexpired entry is served with [useCache = true] and passed over
    with [useCache = false]. *)
Example cached_versus_fresh :
  Cache.get 2000 "counterparty:+998901234567" Samples.warm_cache
    = Some Samples.acme_stale /\
  (getCounterpartyByPhone Samples.net_up 2000 2100 "+998901234567" true
     Samples.warm_cache).1 = Some Samples.acme_stale /\
  (getCounterpartyByPhone Samples.net_up 2000 2100 "+998901234567" false
     Samples.warm_cache).1 =
  Some (Details "cp-1" "Acme" "+998901234567" (div100 (-5000000)) Debtor false).
Proof. repeat split; vm_compute; reflexivity. Qed.

End MoySkladFacts.

(** ** The delivery queue *)

Module RateLimiterFacts.
Import RateLimiter.

Section WithResults.
Context {V E : Type}.
Implicit Types (e : entry V E) (w : world V E) (pending : list (Z * entry V E)).

Lemma arrive_spec pending w later w1 :
  arrive pending w = (later, w1) ->
  exists due,
    pending = due ++ later /\
    queue (lim w1) = queue (lim w) ++ map snd due /\
    maxPerSecond (lim w1) = maxPerSecond (lim w) /\
    clock w1 = clock w /\
    dispatched w1 = dispatched w /\
    settled w1 = settled w.
Proof.
  revert w. induction pending as [|[t e] more IH]; intros w; cbn [arrive].
  - intros [= <- <-]. exists []. cbn. rewrite app_nil_r. repeat split.
  - destruct (t <=? clock w).
    + intros H. apply IH in H as (due & -> & Hq & Hm & Hc & Hd & Hs).
      exists ((t, e) :: due). cbn in *.
      rewrite Hq, <- app_assoc. repeat split; assumption.
    + intros [= <- <-]. exists []. cbn. rewrite app_nil_r. repeat split.
Qed.

Lemma iteration_spec e rest w :
  let w' := iteration e rest w in
  queue (lim w') = rest /\
  maxPerSecond (lim w') = maxPerSecond (lim w) /\
  processing (lim w') = true /\
  settled w' = settled w ++ [owed e] /\
  exists called,
    dispatched w' = (called, who e) :: dispatched w /\
    clock w <= called /\ called + 40 <= clock w'.
Proof.
  unfold iteration, sleep, owed.
  destruct (1000 <=? clock w - currentSecondStart (lim w));
    [destruct (maxPerSecond (lim w) <=? 0)
    |destruct (maxPerSecond (lim w) <=? sentInCurrentSecond (lim w))];
    cbn; (repeat split; [eexists; split; [reflexivity|lia]]).
Qed.

Lemma run_complete (fuel : nat) : forall pending w,
  (enough pending w <= fuel)%nat ->
  let w' := run fuel pending w in
  queue (lim w') = [] /\
  processing (lim w') = false /\
  maxPerSecond (lim w') = maxPerSecond (lim w) /\
  settled w' = settled w ++ map owed (queue (lim w) ++ map snd pending) /\
  map snd (rev (dispatched w')) =
    map snd (rev (dispatched w)) ++ map who (queue (lim w) ++ map snd pending).
Proof.
  unfold enough.
  induction fuel as [|fuel IH]; intros pending w Hfuel; [lia|].
  cbn [run].
  destruct (arrive pending w) as [later w1] eqn:Ha.
  apply arrive_spec in Ha as (due & -> & Hq & Hm & Hc & Hd & Hs).
  rewrite length_app in Hfuel.
  destruct (queue (lim w1)) as [|e rest] eqn:Hq1.
  - symmetry in Hq. apply app_eq_nil in Hq as [Hq0 Hdue].
    apply map_eq_nil in Hdue. subst due. rewrite Hq0. cbn [app length] in *.
    destruct later as [|[t e] later'].
    + cbn. rewrite Hq1, Hm, Hs, Hd, !app_nil_r. repeat split.
    + cbn [length] in Hfuel.
      specialize (IH later' (schedule e (at_time t (stop w1)))).
      cbn [schedule at_time stop lim queue settled dispatched maxPerSecond
           length app] in IH.
      rewrite Hq1 in IH. cbn [app length] in IH.
      destruct IH as (H1 & H2 & H3 & H4 & H5); [lia|].
      cbv zeta. rewrite H1, H2, H3, H4, H5, Hm, Hs, Hd.
      repeat split.
  - specialize (IH later (iteration e rest w1)).
    destruct (iteration_spec e rest w1)
      as (Iq & Im & _ & Is & called & Id & _ & _).
    rewrite Iq, Is, Id in IH.
    assert (Hlen : (length (queue (lim w)) + length due = S (length rest))%nat).
    { rewrite <- (length_map snd due), <- length_app, <- Hq. reflexivity. }
    destruct IH as (H1 & H2 & H3 & H4 & H5); [lia|].
    cbv zeta. rewrite H1, H2, H3, H4, H5, Im, Hm, Hs, Hd.
    repeat split.
    + rewrite (map_app snd due later), (app_assoc (queue (lim w))), <- Hq.
      cbn [app map]. rewrite <- app_assoc. reflexivity.
    + rewrite (map_app snd due later), (app_assoc (queue (lim w))), <- Hq.
      cbn [rev app]. rewrite (map_app snd (rev (dispatched w))).
      cbn [map snd]. rewrite <- app_assoc. reflexivity.
Qed.

Lemma run_rested (fuel : nat) : forall pending w,
  rested w -> rested (run fuel pending w).
Proof.
  unfold rested.
  induction fuel as [|fuel IH]; intros pending w Hw; [exact Hw|].
  cbn [run].
  destruct (arrive pending w) as [later w1] eqn:Ha.
  apply arrive_spec in Ha as (due & -> & Hq & Hm & Hc & Hd & Hs).
  rewrite <- Hd, <- Hc in Hw.
  destruct (queue (lim w1)) as [|e rest] eqn:Hq1.
  - destruct later as [|[t e] later']; [exact Hw|].
    apply IH. cbn [schedule at_time stop dispatched clock].
    destruct Hw as [Hsp Hlast]. split; [exact Hsp|].
    destruct (dispatched w1); [exact I|lia].
  - apply IH.
    destruct (iteration_spec e rest w1)
      as (_ & _ & _ & _ & called & Id & Hlo & Hhi).
    rewrite Id. destruct Hw as [Hsp Hlast].
    split; [|exact Hhi].
    cbn [spaced]. split; [|exact Hsp].
    destruct (dispatched w1) as [|b l]; [exact I|].
    cbn [fst] in *. lia.
Qed.

(** In a record of calls that are 40 ms apart, the calls below [hi] that
    fall into a window ending no later than the window's end number at
    most one per 40 ms. *)
Lemma spaced_window (from : Z) (calls : list (Z * nat)) : forall hi,
  spaced calls ->
  match calls with a :: _ => a.1 < hi | [] => True end ->
  hi <= from + 1000 ->
  40 * Z.of_nat (length (List.filter (in_window from) calls))
    <= Z.max 0 (hi - from + 39).
Proof.
  induction calls as [|a rest IH]; intros hi Hsp Hhead Hhi; [cbn; lia|].
  cbn [spaced] in Hsp. destruct Hsp as [Hgap Hsp].
  cbn [List.filter]. unfold in_window at 1.
  destruct (Z.leb_spec from a.1) as [Hlo|Hlo];
    destruct (Z.ltb_spec a.1 (from + 1000)) as [Hup|Hup];
    cbn [andb]; try lia.
  - specialize (IH (a.1 - 39) Hsp).
    cbn [length]. rewrite Nat2Z.inj_succ.
    assert (Hrest : match rest with b :: _ => b.1 < a.1 - 39 | [] => True end)
      by (destruct rest; [exact I|lia]).
    specialize (IH Hrest). lia.
  - specialize (IH from Hsp).
    assert (Hrest : match rest with b :: _ => b.1 < from | [] => True end)
      by (destruct rest; [exact I|lia]).
    specialize (IH Hrest). lia.
Qed.

Lemma spaced_at_most_25 (from : Z) (calls : list (Z * nat)) :
  spaced calls ->
  (length (List.filter (in_window from) calls) <= 25)%nat.
Proof.
  induction calls as [|a rest IH]; intros Hsp; [cbn; lia|].
  destruct (Z.ltb_spec a.1 (from + 1000)) as [Hup|Hup].
  - pose proof (spaced_window from (a :: rest) (from + 1000) Hsp Hup) as H.
    lia.
  - cbn [List.filter]. unfold in_window at 1.
    destruct (Z.ltb_spec a.1 (from + 1000)) as [?|_]; [lia|].
    rewrite andb_false_r. apply IH. apply Hsp.
Qed.

Lemma create_rested (cap t : Z) : rested (create (V:=V) (E:=E) cap t).
Proof. split; exact I. Qed.

(** C6.  Whatever the tasks do, every promise returned by [schedule] is
    settled with the outcome of its own task, in the order of submission;
    a task that throws has its error delivered to its submitter, and every
    task queued behind it is still called and settled. *)
Theorem outcomes_delivered (cap t0 : Z) pending (fuel : nat) :
  (enough pending (create cap t0) <= fuel)%nat ->
  let w := run fuel pending (create cap t0) in
  settled w = map (fun p => owed p.2) pending /\
  (forall before t e err after,
     pending = before ++ (t, e) :: after ->
     yields e = Threw err ->
     In (who e, Threw err) (settled w) /\
     forall p, In p after ->
       In (owed p.2) (settled w) /\ In (who p.2) (map snd (dispatched w))).
Proof.
  intros Hfuel w.
  destruct (run_complete fuel pending (create cap t0) Hfuel)
    as (_ & _ & _ & Hs & Hd).
  fold w in Hs, Hd. cbn [create settled dispatched lim queue rev map app] in Hs, Hd.
  rewrite map_map in Hs, Hd.
  split; [exact Hs|].
  intros before t e err after -> Hthrew.
  assert (Hcalled : forall p, In p (before ++ (t, e) :: after) ->
                              In (who p.2) (map snd (dispatched w))).
  { intros p Hp. apply (in_map (fun p => who p.2)) in Hp.
    rewrite <- Hd, map_rev, <- in_rev in Hp. exact Hp. }
  split.
  - rewrite Hs. rewrite <- Hthrew.
    apply (in_map (fun p => owed p.2) _ (t, e)), in_elt.
  - intros p Hp.
    assert (Hin : In p (before ++ (t, e) :: after))
      by (apply in_or_app; right; right; exact Hp).
    split; [|apply Hcalled, Hin].
    rewrite Hs. apply (in_map (fun p => owed p.2)), Hin.
Qed.

(** C5, amended.  Every submitted task is called, in the order of
    submission, and its promise settled; consecutive calls are at least
    40 ms apart, so a window of one second, closed at its start and open at
    its end, holds at most 25 calls, which is within [maxPerSecond] when
    that is 25, the default, or more. *)
Theorem all_served_and_spaced (cap t0 : Z) pending (fuel : nat) :
  (enough pending (create cap t0) <= fuel)%nat ->
  let w := run fuel pending (create cap t0) in
  queue (lim w) = [] /\
  processing (lim w) = false /\
  map snd (rev (dispatched w)) = map (fun p => who p.2) pending /\
  map fst (settled w) = map (fun p => who p.2) pending /\
  spaced (dispatched w) /\
  (forall from, (calls_in_window from w <= 25)%nat) /\
  (25 <= cap ->
   forall from, Z.of_nat (calls_in_window from w) <= maxPerSecond (lim w)).
Proof.
  intros Hfuel w.
  destruct (run_complete fuel pending (create cap t0) Hfuel)
    as (Hq & Hp & Hm & Hs & Hd).
  destruct (run_rested fuel pending (create cap t0) (create_rested cap t0))
    as [Hsp _].
  fold w in Hq, Hp, Hm, Hs, Hd, Hsp.
  cbn [create settled dispatched lim queue maxPerSecond rev map app] in Hs, Hd, Hm.
  rewrite map_map in Hs, Hd.
  assert (Hwin : forall from, (calls_in_window from w <= 25)%nat)
    by (intros from; apply spaced_at_most_25, Hsp).
  repeat split; try assumption.
  - rewrite Hs, map_map. reflexivity.
  - intros Hcap from. specialize (Hwin from). rewrite Hm. lia.
Qed.

End WithResults.

Example burst_at_cap_two :
  let w := run 8 (Samples.burst 900 4) (create 2 0) in
  rev (dispatched w) = [(900, 0%nat); (940, 1%nat); (1000, 2%nat); (1040, 3%nat)].
Proof. vm_compute. reflexivity. Qed.

Lemma outcomes_delivered_witness :
  let w := run 7 Samples.mixed (create 25 0) in
  settled w = map (fun p => owed p.2) Samples.mixed /\
  (forall before t e err after,
     Samples.mixed = before ++ (t, e) :: after ->
     yields e = Threw err ->
     In (who e, Threw err) (settled w) /\
     forall p, In p after ->
       In (owed p.2) (settled w) /\ In (who p.2) (map snd (dispatched w))).
Proof.
  apply (outcomes_delivered 25 0 Samples.mixed 7). vm_compute. lia.
Defined.

Example mixed_settled :
  settled (run 7 Samples.mixed (create 25 0)) =
  [(0%nat, Resolved 10%nat); (1%nat, Threw "blocked"%string);
   (2%nat, Resolved 30%nat)].
Proof. vm_compute. reflexivity. Qed.

(** C5, as stated, fails for a cap below 25: a limiter made at time 0 with
    [maxPerSecond = 2] that receives 100 tasks at time 900 calls four of
    them within 140 ms. *)
Lemma cap_two_exceeded :
  let pending := Samples.burst 900 100 in
  let w := run (enough pending (create 2 0)) pending (create 2 0) in
  length pending = 100%nat /\
  queue (lim w) = [] /\
  maxPerSecond (lim w) = 2 /\
  calls_in_window 900 w = 4%nat /\
  (firstn 4 (rev (dispatched w)) =
     [(900, 0%nat); (940, 1%nat); (1000, 2%nat); (1040, 3%nat)]).
Proof. vm_compute. repeat split. Qed.

Lemma all_served_and_spaced_witness :
  let pending := Samples.burst 900 100 in
  let w := run 201 pending (create 25 0) in
  queue (lim w) = [] /\
  processing (lim w) = false /\
  map snd (rev (dispatched w)) = map (fun p => who p.2) pending /\
  map fst (settled w) = map (fun p => who p.2) pending /\
  spaced (dispatched w) /\
  (forall from, (calls_in_window from w <= 25)%nat) /\
  (25 <= 25 ->
   forall from, Z.of_nat (calls_in_window from w) <= maxPerSecond (lim w)).
Proof.
  apply (all_served_and_spaced 25 0 (Samples.burst 900 100) 201).
  vm_compute. lia.
Defined.

End RateLimiterFacts.


(** ** The daily reminder sweep *)

Module ReminderFacts.
Import MoySklad Reminder.
Local Open Scope string_scope.

Lemma one_total (r : result) :
  (is_sent r = true /\ is_skipped r = false /\ is_failed r = false) \/
  (is_sent r = false /\ is_skipped r = true /\ is_failed r = false) \/
  (is_sent r = false /\ is_skipped r = false /\ is_failed r = true).
Proof. destruct r as [d|[]]; cbn; tauto. Qed.

Lemma count_spec (r : result) (n : counters) :
  sent (count r n) = (sent n + Nat.b2n (is_sent r))%nat /\
  skipped (count r n) = (skipped n + Nat.b2n (is_skipped r))%nat /\
  failed (count r n) = (failed n + Nat.b2n (is_failed r))%nat.
Proof. destruct r as [d|[]]; cbn; lia. Qed.

Lemma tally_cons (f : result -> bool) (u : user) (r : result) log :
  tally f ((u, r) :: log) = (Nat.b2n (f r) + tally f log)%nat.
Proof. unfold tally. cbn. destruct (f r); reflexivity. Qed.

Lemma tally_total log :
  (tally is_sent log + tally is_skipped log + tally is_failed log)%nat
  = length log.
Proof.
  induction log as [|[u r] log IH]; [reflexivity|].
  rewrite !tally_cons. cbn [length].
  destruct (one_total r) as [(-> & -> & ->)|[(-> & -> & ->)|(-> & -> & ->)]];
    cbn; lia.
Qed.

Lemma sweep_counts users : forall n c,
  let out := sweep users n c in
  length out.1.2 = length users /\
  sent out.1.1 = (sent n + tally is_sent out.1.2)%nat /\
  skipped out.1.1 = (skipped n + tally is_skipped out.1.2)%nat /\
  failed out.1.1 = (failed n + tally is_failed out.1.2)%nat.
Proof.
  induction users as [|[u s] more IH]; intros n c.
  - cbn. unfold tally. cbn. lia.
  - cbn [sweep].
    destruct (processUser u s c) as [[r u'] c1].
    specialize (IH (count r n) c1).
    destruct (sweep more (count r n) c1) as [[n' log] c2].
    cbn [fst snd length] in *.
    rewrite !tally_cons.
    destruct (count_spec r n) as (Hs & Hk & Hf).
    lia.
Qed.

Lemma processUser_not_found (u : user) (s : served)
    (c : gmap string (Cache.doc details)) :
  is_active u = true ->
  (getCounterpartyByPhone (net s) (t_get s) (t_set s) (user_phone u) true c).1
    = None ->
  (processUser u s c).1.1 = Failure not_found.
Proof.
  intros Hact Hnone. unfold processUser. rewrite Hact. cbn [negb].
  destruct (getCounterpartyByPhone _ _ _ _ _ _) as [found c'].
  cbn [fst] in Hnone. subst found. reflexivity.
Qed.

(** C3, as stated, fails: in a sweep over one active user whose phone
    matches no counterparty, the user's result is [not_found] and the sweep
    ends with skipped = 0 and failed = 1. *)
Lemma not_found_counts_as_failed :
  let out := execute (Sender false)
               (Samples.at_nine [(Samples.stranger, Samples.serve_nobody)]) ∅ in
  processed out.1.2 = [(Samples.stranger, Failure not_found)] /\
  summary out.1.2 = Some (Counters 0 0 1).
Proof. vm_compute. split; reflexivity. Qed.

(** C3, amended.  In a sweep, every processed user gets one result, which
    is a success or a failure with one of the reasons [inactive],
    [no_debt], [not_found], [send_failed] and [error], and is counted in
    exactly one total: successes in sent, [inactive] and [no_debt] in
    skipped, the other three reasons in failed.  A user whose phone matches
    no counterparty gets [not_found] and is counted in the failed total. *)
Theorem sweep_classifies (env : tick) (target : string)
    (users : list (user * served)) (c : gmap string (Cache.doc details)) :
  globalSendTime env = Some target ->
  currentTime env = target ->
  activeUsers env = Some users ->
  users <> [] ->
  statsSaved env = true ->
  let rep := (execute (Sender false) env c).1.2 in
  length (processed rep) = length users /\
  summary rep = Some (Counters (tally is_sent (processed rep))
                               (tally is_skipped (processed rep))
                               (tally is_failed (processed rep))) /\
  (tally is_sent (processed rep) + tally is_skipped (processed rep)
   + tally is_failed (processed rep))%nat = length users /\
  (forall u r, In (u, r) (processed rep) ->
     (is_sent r = true /\ is_skipped r = false /\ is_failed r = false) \/
     (is_sent r = false /\ is_skipped r = true /\ is_failed r = false) \/
     (is_sent r = false /\ is_skipped r = false /\ is_failed r = true)) /\
  (forall u s c0,
     is_active u = true ->
     (getCounterpartyByPhone (net s) (t_get s) (t_set s)
        (user_phone u) true c0).1 = None ->
     (processUser u s c0).1.1 = Failure not_found /\
     is_failed (processUser u s c0).1.1 = true /\
     is_skipped (processUser u s c0).1.1 = false).
Proof.
  intros Htarget Htime Husers Hne Hstats.
  unfold execute, attempt. cbn [enter isRunning].
  rewrite Htarget, Htime, String.eqb_refl, Husers, Hstats. cbn [negb].
  destruct users as [|first more]; [congruence|].
  pose proof (sweep_counts (first :: more) (Counters 0 0 0) c) as Hsw.
  destruct (sweep (first :: more) (Counters 0 0 0) c) as [[n log] c'].
  cbn [fst snd sent skipped failed] in Hsw.
  destruct Hsw as (Hlen & Hs & Hk & Hf).
  cbv zeta. cbn [fst snd processed summary].
  split; [exact Hlen|]. split.
  - destruct n as [a b d]. cbn in Hs, Hk, Hf. subst. reflexivity.
  - split; [rewrite tally_total; exact Hlen|].
    split; [intros u r _; apply one_total|].
    intros u s c0 Hact Hnone.
    rewrite (processUser_not_found u s c0 Hact Hnone). repeat split.
Qed.

Lemma sweep_classifies_witness :
  let users := [(Samples.stranger, Samples.serve_nobody);
                (Samples.debtor_user, Samples.serve_debtor)] in
  let rep := (execute (Sender false) (Samples.at_nine users) ∅).1.2 in
  length (processed rep) = length users /\
  summary rep = Some (Counters (tally is_sent (processed rep))
                               (tally is_skipped (processed rep))
                               (tally is_failed (processed rep))) /\
  (tally is_sent (processed rep) + tally is_skipped (processed rep)
   + tally is_failed (processed rep))%nat = length users /\
  (forall u r, In (u, r) (processed rep) ->
     (is_sent r = true /\ is_skipped r = false /\ is_failed r = false) \/
     (is_sent r = false /\ is_skipped r = true /\ is_failed r = false) \/
     (is_sent r = false /\ is_skipped r = false /\ is_failed r = true)) /\
  (forall u s c0,
     is_active u = true ->
     (getCounterpartyByPhone (net s) (t_get s) (t_set s)
        (user_phone u) true c0).1 = None ->
     (processUser u s c0).1.1 = Failure not_found /\
     is_failed (processUser u s c0).1.1 = true /\
     is_skipped (processUser u s c0).1.1 = false).
Proof.
  apply (sweep_classifies
           (Samples.at_nine [(Samples.stranger, Samples.serve_nobody);
                             (Samples.debtor_user, Samples.serve_debtor)])
           "09:00"
           [(Samples.stranger, Samples.serve_nobody);
            (Samples.debtor_user, Samples.serve_debtor)] ∅);
    [reflexivity | reflexivity | reflexivity | discriminate | reflexivity].
Defined.

Example two_user_sweep :
  summary (execute (Sender false)
             (Samples.at_nine [(Samples.stranger, Samples.serve_nobody);
                               (Samples.debtor_user, Samples.serve_debtor)])
             ∅).1.2
  = Some (Counters 1 0 1).
Proof. vm_compute. reflexivity. Qed.

Example debtor_is_reminded :
  (processUser Samples.debtor_user Samples.serve_debtor ∅).1.1
  = Success (Qabs (div100 (-5000000))).
Proof. vm_compute. reflexivity. Qed.

(** The state of overlapping ticks: no sweep and the flag down, or one
    sweep and the flag up. *)
Lemma react_keeps (ev : event) (k : cron) :
  (sweeping k = 0%nat /\ isRunning (flag k) = false) \/
  (sweeping k = 1%nat /\ isRunning (flag k) = true) ->
  (sweeping (react ev k) = 0%nat /\ isRunning (flag (react ev k)) = false) \/
  (sweeping (react ev k) = 1%nat /\ isRunning (flag (react ev k)) = true).
Proof.
  destruct k as [[running] n]. cbn.
  intros [[-> ->]|[-> ->]]; destruct ev; cbn; auto.
Qed.

Lemma history_keeps (evs : list event) : forall k,
  (sweeping k = 0%nat /\ isRunning (flag k) = false) \/
  (sweeping k = 1%nat /\ isRunning (flag k) = true) ->
  (sweeping (history evs k) = 0%nat /\ isRunning (flag (history evs k)) = false) \/
  (sweeping (history evs k) = 1%nat /\ isRunning (flag (history evs k)) = true).
Proof.
  induction evs as [|ev evs IH]; intros k Hk; [exact Hk|].
  cbn [history fold_left]. apply IH, react_keeps, Hk.
Qed.

(** C9.  A tick that fires while [isRunning] is set does nothing: it
    processes no user, writes no statistics and leaves the sender and the
    cache as they were.  Hence, however ticks and sweeps interleave, at
    most one sweep is under way, and only while the flag is set. *)
Theorem running_tick_is_skipped (s : sender) (env : tick)
    (c : gmap string (Cache.doc details)) :
  isRunning s = true ->
  execute s env c = (s, nothing_done, c) /\
  processed (execute s env c).1.2 = [] /\
  (forall k, isRunning (flag k) = true -> react Fires k = k) /\
  (forall evs,
     (sweeping (history evs started) <= 1)%nat /\
     (sweeping (history evs started) = 1%nat <->
      isRunning (flag (history evs started)) = true)).
Proof.
  intros Hrun. unfold execute, enter. rewrite Hrun.
  split; [reflexivity|]. split; [reflexivity|]. split.
  - intros k Hk. unfold react, enter. rewrite Hk. reflexivity.
  - intros evs.
    destruct (history_keeps evs started) as [[-> ->]|[-> ->]];
      [left; split; reflexivity| |];
      (split; [lia|split; congruence]).
Qed.

Lemma running_tick_is_skipped_witness :
  let env := Samples.at_nine [(Samples.debtor_user, Samples.serve_debtor)] in
  execute (Sender true) env ∅ = (Sender true, nothing_done, ∅) /\
  processed (execute (Sender true) env ∅).1.2 = [] /\
  (forall k, isRunning (flag k) = true -> react Fires k = k) /\
  (forall evs,
     (sweeping (history evs started) <= 1)%nat /\
     (sweeping (history evs started) = 1%nat <->
      isRunning (flag (history evs started)) = true)).
Proof.
  apply (running_tick_is_skipped (Sender true)
           (Samples.at_nine [(Samples.debtor_user, Samples.serve_debtor)]) ∅).
  reflexivity.
Defined.

(** The same tick, met with the flag down, does sweep. *)
Example idle_tick_sweeps :
  processed (execute (Sender false)
               (Samples.at_nine [(Samples.debtor_user, Samples.serve_debtor)])
               ∅).1.2 <> [].
Proof. vm_compute. discriminate. Qed.

End ReminderFacts.

(** ** More on phone numbers *)

Module PhoneMoreFacts.
Import Phone PhoneFacts.
Local Open Scope string_scope.

Lemma valid_phone_inv (v : string) :
  valid_phone v = true ->
  exists national,
    v = "+998" ++ national /\
    String.length national = 9%nat /\
    all_chars is_digit national = true.
Proof.
  destruct v as [|a [|b [|c [|d national]]]]; try discriminate;
    try (destruct a as [[] [] [] [] [] [] [] []]; discriminate);
    try (destruct a as [[] [] [] [] [] [] [] []]; try discriminate;
         destruct b as [[] [] [] [] [] [] [] []]; discriminate);
    try (destruct a as [[] [] [] [] [] [] [] []]; try discriminate;
         destruct b as [[] [] [] [] [] [] [] []]; try discriminate;
         destruct c as [[] [] [] [] [] [] [] []]; discriminate).
  destruct a as [[] [] [] [] [] [] [] []]; try discriminate.
  destruct b as [[] [] [] [] [] [] [] []]; try discriminate.
  destruct c as [[] [] [] [] [] [] [] []]; try discriminate.
  destruct d as [[] [] [] [] [] [] [] []]; try discriminate.
  change (valid_phone ("+998" ++ national))
    with (Nat.eqb (String.length national) 9
          && all_chars is_digit national)%bool.
  intros [Hlen Hdig]%andb_prop. apply Nat.eqb_eq in Hlen.
  exists national. auto.
Qed.

(** The result is a [+] in front of digits, whatever the input. *)
Lemma normalizePhone_shape (p : string) :
  exists d,
    normalizePhone p = "+" ++ d /\
    all_chars is_digit d = true /\
    (d = strip_non_digits p \/ d = "998" ++ strip_non_digits p).
Proof.
  pose proof (strip_all_digits p) as Hd.
  unfold normalizePhone.
  destruct (startsWith "998" (strip_non_digits p)).
  - exists (strip_non_digits p). auto.
  - destruct (Nat.eqb (String.length (strip_non_digits p)) 9).
    + exists ("998" ++ strip_non_digits p). auto.
    + rewrite (digits_not_plus _ Hd). exists (strip_non_digits p). auto.
Qed.

(** A phone that the schema's validator accepts is left as it is by
    [normalizePhone]. *)
Theorem valid_phone_is_normal (v : string) :
  valid_phone v = true -> normalizePhone v = v.
Proof.
  intros (national & -> & _ & Hdig)%valid_phone_inv.
  unfold normalizePhone.
  change (strip_non_digits ("+998" ++ national))
    with ("998" ++ strip_non_digits national).
  rewrite (strip_of_digits _ Hdig). reflexivity.
Qed.

Lemma valid_phone_is_normal_witness :
  normalizePhone "+998979126161" = "+998979126161".
Proof. apply (valid_phone_is_normal "+998979126161"). reflexivity. Defined.

(** The registration handler and the edit route accept a phone exactly
    when [normalizePhone] of it passes the validator; that is so exactly
    when its digits are [998] and nine more, or nine digits that do not
    begin with [998]. *)
Theorem accepted_phones (p : string) :
  valid_phone (normalizePhone p) = true <->
  (startsWith "998" (strip_non_digits p) = true /\
   String.length (strip_non_digits p) = 12%nat) \/
  (startsWith "998" (strip_non_digits p) = false /\
   String.length (strip_non_digits p) = 9%nat).
Proof.
  pose proof (strip_all_digits p) as Hd.
  unfold normalizePhone.
  destruct (startsWith "998" (strip_non_digits p)) eqn:H998.
  - destruct (startsWith_998_inv _ H998) as [r Hr]. rewrite Hr in *.
    change ("+" ++ "998" ++ r) with ("+998" ++ r).
    change (valid_phone ("+998" ++ r))
      with (Nat.eqb (String.length r) 9 && all_chars is_digit r)%bool.
    change (all_chars is_digit ("998" ++ r)) with (all_chars is_digit r) in Hd.
    change (String.length ("998" ++ r)) with (S (S (S (String.length r)))).
    rewrite Hd, andb_true_r, Nat.eqb_eq. split.
    + intros H. left. split; [reflexivity|lia].
    + intros [[_ H]|[H _]]; [lia|discriminate].
  - destruct (Nat.eqb (String.length (strip_non_digits p)) 9) eqn:Hlen.
    + apply Nat.eqb_eq in Hlen. split.
      * intros _. right. auto.
      * intros _. apply valid_phone_intro; assumption.
    + apply Nat.eqb_neq in Hlen.
      rewrite (digits_not_plus _ Hd). cbn [negb]. split.
      * intros (national & Heq & _ & _)%valid_phone_inv.
        change ("+" ++ strip_non_digits p)
          with (String "+" (strip_non_digits p)) in Heq.
        change ("+998" ++ national)
          with (String "+" ("998" ++ national)) in Heq.
        injection Heq as Heq. rewrite Heq in H998. discriminate H998.
      * intros [[H _]|[_ H]]; [discriminate|contradiction].
Qed.

Lemma white_not_kept (c : ascii) :
  PhoneScript.is_white c = true -> (is_digit c || Ascii.eqb c "+")%bool = false.
Proof.
  destruct c as [[] [] [] [] [] [] [] []]; vm_compute; intros H;
    first [reflexivity | discriminate H].
Qed.

Lemma phone_char_not_plus (c : ascii) :
  phone_char c = true -> Ascii.eqb c "+" = false.
Proof.
  destruct c as [[] [] [] [] [] [] [] []]; vm_compute; intros H;
    first [reflexivity | discriminate H].
Qed.

Lemma keep_trimStart (s : string) :
  PhoneScript.keep_digits_plus (PhoneScript.trimStart s)
  = PhoneScript.keep_digits_plus s.
Proof.
  induction s as [|c r IH]; [reflexivity|].
  cbn [PhoneScript.trimStart].
  destruct (PhoneScript.is_white c) eqn:Hw; [|reflexivity].
  cbn [PhoneScript.keep_digits_plus]. rewrite (white_not_kept c Hw). exact IH.
Qed.

Lemma keep_trimEnd (s : string) :
  PhoneScript.keep_digits_plus (PhoneScript.trimEnd s)
  = PhoneScript.keep_digits_plus s.
Proof.
  induction s as [|c r IH]; [reflexivity|].
  cbn [PhoneScript.trimEnd].
  destruct (PhoneScript.trimEnd r) as [|c' r'] eqn:Hr.
  - cbn [PhoneScript.keep_digits_plus] in IH |- *. rewrite <- IH.
    destruct (PhoneScript.is_white c) eqn:Hw.
    + rewrite (white_not_kept c Hw). reflexivity.
    + reflexivity.
  - change (PhoneScript.keep_digits_plus (String c (String c' r')))
      with (if (is_digit c || Ascii.eqb c "+")%bool
            then String c (PhoneScript.keep_digits_plus (String c' r'))
            else PhoneScript.keep_digits_plus (String c' r')).
    rewrite IH. reflexivity.
Qed.

Lemma keep_is_strip (s : string) :
  all_chars phone_char s = true ->
  PhoneScript.keep_digits_plus s = strip_non_digits s.
Proof.
  induction s as [|c r IH]; [reflexivity|].
  cbn [all_chars]. intros [Hc Hr]%andb_prop.
  cbn [PhoneScript.keep_digits_plus strip_non_digits].
  rewrite (phone_char_not_plus c Hc), orb_false_r, (IH Hr). reflexivity.
Qed.

(** On an input of digits, spaces, dashes and parentheses behind a
    leading [998] or [+998], the normaliser of the test script and
    [User.normalizePhone] return the same string. *)
Theorem script_agrees_on_prefixed (p : string) :
  prefixed_input p = true ->
  PhoneScript.normalizePhone p = normalizePhone p.
Proof.
  intros Hp.
  pose proof (prefixed_input_digits p Hp) as H998.
  unfold PhoneScript.normalizePhone, PhoneScript.trim, normalizePhone.
  rewrite keep_trimEnd, keep_trimStart, H998.
  unfold prefixed_input in Hp.
  destruct p as [|c r]; [discriminate|].
  destruct (Ascii.eqb c "+") eqn:Hc.
  - apply Ascii.eqb_eq in Hc. subst c.
    apply andb_prop in Hp as [_ Hr].
    change (PhoneScript.keep_digits_plus (String "+" r))
      with (String "+" (PhoneScript.keep_digits_plus r)).
    change (strip_non_digits (String "+" r)) with (strip_non_digits r).
    rewrite (keep_is_strip r Hr). reflexivity.
  - assert (Hall : all_chars phone_char (String c r) = true).
    { destruct c as [[] [] [] [] [] [] [] []];
        try discriminate Hc; apply andb_prop in Hp as [_ H]; exact H. }
    rewrite (keep_is_strip _ Hall), H998.
    pose proof (strip_all_digits (String c r)) as Hd.
    assert (Hnp : startsWith "+998" (strip_non_digits (String c r)) = false).
    { destruct (strip_non_digits (String c r)) as [|a t]; [reflexivity|].
      cbn [all_chars] in Hd. apply andb_prop in Hd as [Ha _].
      cbn [startsWith].
      destruct (Ascii.eqb "+" a) eqn:Hpa; [|reflexivity].
      apply Ascii.eqb_eq in Hpa. subst a. discriminate Ha. }
    rewrite Hnp. reflexivity.
Qed.

Lemma script_agrees_on_prefixed_witness :
  PhoneScript.normalizePhone "+998 (97) 912-61-61 "
  = normalizePhone "+998 (97) 912-61-61 ".
Proof.
  apply (script_agrees_on_prefixed "+998 (97) 912-61-61 "). reflexivity.
Defined.

(** Without the prefix the two part ways: the script adds nothing. *)
Example script_leaves_national :
  PhoneScript.normalizePhone "97 912 61 61" = "979126161" /\
  normalizePhone "97 912 61 61" = "+998979126161".
Proof. split; reflexivity. Qed.

End PhoneMoreFacts.

(** ** More on the cache, and the settings *)

Module StoreFacts.
Local Open Scope string_scope.

Section CachePayload.
Context {V : Type}.
Implicit Types (c : gmap string (Cache.doc V)) (key : string) (v : V).

(** What [delete] and [clearAll] remove cannot be read any more, and
    [delete] leaves every other key as it was. *)
Theorem removed_is_gone now key other c :
  Cache.get now key (Cache.delete key c) = None /\
  Cache.get now key (Cache.clearAll c) = None /\
  (key <> other ->
   Cache.get now other (Cache.delete key c) = Cache.get now other c).
Proof.
  unfold Cache.get, Cache.delete, Cache.clearAll.
  split; [|split].
  - rewrite lookup_delete_eq. reflexivity.
  - reflexivity.
  - intros Hne. rewrite lookup_delete_ne; done.
Qed.

(** The last [set] of a key wins: an earlier [set] of the same key leaves
    no trace, neither in the value nor in the expiry, also when the later
    time to live is the shorter one. *)
Theorem last_set_wins t1 t2 key v1 v2 ttl1 ttl2 c now :
  (Cache.set t2 key v2 ttl2 (Cache.set t1 key v1 ttl1 c).1).1
    = (Cache.set t2 key v2 ttl2 c).1 /\
  Cache.get now key (Cache.set t2 key v2 ttl2 (Cache.set t1 key v1 ttl1 c).1).1
    = if (now <? t2 + ttl2 * 1000)%Z then Some v2 else None.
Proof.
  split.
  - unfold Cache.set. cbn [fst]. apply insert_insert_eq.
  - apply CacheFacts.get_set_same.
Qed.

(** Removing expired documents, by [clearExpired] or by the index of the
    database, at a time that is not later than a read, does not change
    what the read returns. *)
Theorem sweeps_are_invisible now swept key c :
  swept <= now ->
  Cache.get now key (Cache.clearExpired swept c) = Cache.get now key c /\
  Cache.get now key (Cache.ttlMonitor swept c) = Cache.get now key c.
Proof.
  intros Hle. split.
  - apply CacheFacts.get_clearExpired, Hle.
  - apply CacheFacts.get_ttlMonitor, Hle.
Qed.

End CachePayload.

Lemma removed_is_gone_witness :
  Cache.get 5 "b" (Cache.delete "a" (Cache.set 0 "b" 1%nat 9 ∅).1)
  = Cache.get 5 "b" (Cache.set 0 "b" 1%nat 9 ∅).1.
Proof.
  apply (removed_is_gone 5 "a" "b" (Cache.set 0 "b" 1%nat 9 ∅).1).
  discriminate.
Defined.

Lemma sweeps_are_invisible_witness :
  Cache.get 2000 "k" (Cache.clearExpired 1500 (Cache.set 1000 "k" 7%nat 5 ∅).1)
    = Cache.get 2000 "k" (Cache.set 1000 "k" 7%nat 5 ∅).1 /\
  Cache.get 2000 "k" (Cache.ttlMonitor 1500 (Cache.set 1000 "k" 7%nat 5 ∅).1)
    = Cache.get 2000 "k" (Cache.set 1000 "k" 7%nat 5 ∅).1.
Proof.
  apply (sweeps_are_invisible 2000 1500 "k" (Cache.set 1000 "k" 7%nat 5 ∅).1).
  lia.
Defined.

Section SettingsValue.
Context {V : Type}.
Implicit Types (s : gmap string (Settings.setting V)) (key : string) (v : V).

(** A setting that was [set] is what [get] returns, whatever the default;
    other keys are not touched; a key that is not there gives the
    default. *)
Theorem settings_get_set now key other v dflt descr s :
  Settings.get key dflt (Settings.set now key v descr s).1 = v /\
  (key <> other ->
   Settings.get other dflt (Settings.set now key v descr s).1
   = Settings.get other dflt s) /\
  (s !! key = None -> Settings.get key dflt s = dflt).
Proof.
  unfold Settings.get, Settings.set. cbn [fst]. split; [|split].
  - rewrite lookup_insert_eq. reflexivity.
  - intros Hne. rewrite lookup_insert_ne; done.
  - intros ->. reflexivity.
Qed.



End SettingsValue.

Lemma settings_get_set_witness :
  Settings.get "b" 0%nat (Settings.set 10 "a" 1%nat "" ∅).1
  = Settings.get "b" 0%nat (∅ : gmap string (Settings.setting nat)).
Proof.
  apply (settings_get_set 10 "a" "b" 1%nat 0%nat "" ∅). discriminate.
Defined.

End StoreFacts.

(** ** Times of day *)

Module ClockFacts.
Import Phone Clock Reminder.
Local Open Scope string_scope.

Lemma length_append (a b : string) :
  String.length (a ++ b) = (String.length a + String.length b)%nat.
Proof.
  induction a as [|c a IH]; [reflexivity|].
  change (String c a ++ b) with (String c (a ++ b)).
  cbn [String.length]. rewrite IH. reflexivity.
Qed.

Lemma length_repeated (f : ascii) (n : nat) :
  String.length (string_of_list_ascii (repeat f n)) = n.
Proof. induction n as [|n IH]; cbn; [reflexivity|]. rewrite IH. reflexivity. Qed.

Lemma length_padStart (target : nat) (f : ascii) (s : string) :
  String.length (padStart target f s) = Nat.max target (String.length s).
Proof. unfold padStart. rewrite length_append, length_repeated. lia. Qed.

Lemma length_getCurrentTime (h m : nat) :
  (5 <= String.length (getCurrentTime h m))%nat.
Proof.
  unfold getCurrentTime.
  rewrite length_append, length_padStart.
  change (":" ++ padStart 2 "0" (String_of m))
    with (String ":" (padStart 2 "0" (String_of m))).
  cbn [String.length]. rewrite length_padStart. lia.
Qed.

Lemma every_minute_checked :
  forallb (fun h =>
    forallb (fun m =>
      (valid_time (getCurrentTime h m)
       && Nat.eqb (String.length (getCurrentTime h m)) 5)%bool)
      (seq 0 60)) (seq 0 24) = true.
Proof. vm_compute. reflexivity. Qed.

(** Every reading of the wall clock is a string of five characters that
    the time validator accepts. *)
Theorem getCurrentTime_valid (h m : nat) :
  (h < 24)%nat -> (m < 60)%nat ->
  valid_time (getCurrentTime h m) = true /\
  String.length (getCurrentTime h m) = 5%nat.
Proof.
  intros Hh Hm.
  pose proof every_minute_checked as H.
  rewrite forallb_forall in H.
  specialize (H h (proj2 (in_seq 24 0 h) (conj (Nat.le_0_l h) Hh))).
  rewrite forallb_forall in H.
  specialize (H m (proj2 (in_seq 60 0 m) (conj (Nat.le_0_l m) Hm))).
  apply andb_prop in H as [Hv Hl]. apply Nat.eqb_eq in Hl. auto.
Qed.

Lemma getCurrentTime_valid_witness :
  valid_time (getCurrentTime 9 5) = true /\
  String.length (getCurrentTime 9 5) = 5%nat.
Proof. apply (getCurrentTime_valid 9 5); lia. Defined.

(** A send time with a one-digit hour, such as [9:00], is accepted by the
    settings route and stored, and from then on no tick sweeps: the wall
    clock always reads two digits for the hour. *)
Theorem short_time_never_fires (t env_time : string) (now : Z)
    (s : gmap string (Settings.setting string)) (h m : nat)
    (users : option (list (user * served))) (stats : bool)
    (c : gmap string (Cache.doc MoySklad.details)) :
  accepts_send_time t = true ->
  String.length t = 4%nat ->
  let s' := post_send_time now t s in
  configured_time env_time s' = t /\
  execute (Sender false)
          (Tick (getCurrentTime h m) (Some (configured_time env_time s'))
                users stats) c
  = (Sender false, nothing_done, c).
Proof.
  intros Hacc Hlen s'.
  assert (Hconf : configured_time env_time s' = t).
  { unfold s', post_send_time, configured_time. rewrite Hacc.
    unfold Settings.get, Settings.set. cbn [fst].
    rewrite lookup_insert_eq. reflexivity. }
  split; [exact Hconf|]. rewrite Hconf.
  unfold execute, attempt.
  cbn [enter isRunning globalSendTime currentTime leave].
  destruct (String.eqb (getCurrentTime h m) t) eqn:Heq; [|reflexivity].
  apply String.eqb_eq in Heq.
  pose proof (length_getCurrentTime h m) as H5. rewrite Heq in H5. lia.
Qed.

Lemma short_time_never_fires_witness :
  let s' := post_send_time 0 "9:00" ∅ in
  configured_time "" s' = "9:00" /\
  execute (Sender false)
          (Tick (getCurrentTime 9 0) (Some (configured_time "" s'))
                (Some [(Samples.debtor_user, Samples.serve_debtor)]) true) ∅
  = (Sender false, nothing_done, ∅).
Proof.
  apply (short_time_never_fires "9:00" "" 0 ∅ 9 0
           (Some [(Samples.debtor_user, Samples.serve_debtor)]) true ∅);
    reflexivity.
Defined.

Lemma two_digits_checked :
  forallb (fun x =>
    forallb (fun y =>
      String.eqb (padStart 2 "0" (String_of (10 * x + y)))
                 (String (ascii_of_nat (48 + x))
                         (String (ascii_of_nat (48 + y)) EmptyString)))
      (seq 0 10)) (seq 0 10) = true.
Proof. vm_compute. reflexivity. Qed.

Lemma two_digits (a b : ascii) :
  is_digit a = true -> is_digit b = true ->
  padStart 2 "0" (String_of (10 * (nat_of_ascii a - 48) + (nat_of_ascii b - 48)))
  = String a (String b EmptyString).
Proof.
  unfold is_digit. cbv zeta.
  intros [Ha1 Ha2]%andb_prop [Hb1 Hb2]%andb_prop.
  apply Nat.leb_le in Ha1, Ha2, Hb1, Hb2.
  pose proof two_digits_checked as H.
  rewrite forallb_forall in H.
  assert (Hx : In (nat_of_ascii a - 48)%nat (seq 0 10)) by (apply in_seq; lia).
  assert (Hy : In (nat_of_ascii b - 48)%nat (seq 0 10)) by (apply in_seq; lia).
  specialize (H _ Hx). rewrite forallb_forall in H.
  specialize (H _ Hy). apply String.eqb_eq in H.
  rewrite H.
  replace (48 + (nat_of_ascii a - 48))%nat with (nat_of_ascii a) by lia.
  replace (48 + (nat_of_ascii b - 48))%nat with (nat_of_ascii b) by lia.
  rewrite !ascii_nat_embedding. reflexivity.
Qed.

Lemma between_bounds (lo hi : nat) (c : ascii) :
  between lo hi c = true -> (lo <= nat_of_ascii c <= hi)%nat.
Proof.
  unfold between. cbv zeta. intros [H1 H2]%andb_prop.
  apply Nat.leb_le in H1, H2. lia.
Qed.

Lemma between_digit (lo hi : nat) (c : ascii) :
  (48 <= lo)%nat -> (hi <= 57)%nat -> between lo hi c = true -> is_digit c = true.
Proof.
  intros Hlo Hhi [H1 H2]%between_bounds. unfold is_digit. cbv zeta.
  apply andb_true_intro. split; apply Nat.leb_le; lia.
Qed.

(** A send time of five characters that the validator accepts is the
    reading of the wall clock at some minute of the day, so a tick will
    match it. *)
Theorem valid_time_is_reached (t : string) :
  valid_time t = true ->
  String.length t = 5%nat ->
  exists h m, (h < 24)%nat /\ (m < 60)%nat /\ getCurrentTime h m = t.
Proof.
  destruct t as [|h1 [|h2 [|c [|m1 [|m2 [|x r]]]]]]; try discriminate.
  cbn [valid_time]. intros Hv _.
  apply andb_prop in Hv as [Hv Hm2].
  apply andb_prop in Hv as [Hv Hm1].
  apply andb_prop in Hv as [Hh Hc].
  apply Ascii.eqb_eq in Hc. subst c.
  pose proof (between_bounds _ _ _ Hm1) as Bm1.
  pose proof (between_digit 48 53 m1 ltac:(lia) ltac:(lia) Hm1) as Dm1.
  assert (Dm2 : (48 <= nat_of_ascii m2 <= 57)%nat)
    by (apply (between_bounds 48 57), Hm2).
  assert (Hhour : is_digit h1 = true /\ is_digit h2 = true /\
                  (10 * (nat_of_ascii h1 - 48) + (nat_of_ascii h2 - 48) < 24)%nat).
  { apply orb_prop in Hh as [[A B]%andb_prop|[A B]%andb_prop].
    - pose proof (between_bounds _ _ _ A).
      assert (48 <= nat_of_ascii h2 <= 57)%nat by (apply (between_bounds 48 57), B).
      split; [apply (between_digit 48 49); [lia|lia|exact A]|].
      split; [exact B|lia].
    - apply Ascii.eqb_eq in A. subst h1.
      pose proof (between_bounds _ _ _ B).
      split; [reflexivity|].
      split; [apply (between_digit 48 51); [lia|lia|exact B]|].
      change (nat_of_ascii "2") with 50%nat. lia. }
  destruct Hhour as (Dh1 & Dh2 & Hlt).
  exists (10 * (nat_of_ascii h1 - 48) + (nat_of_ascii h2 - 48))%nat,
         (10 * (nat_of_ascii m1 - 48) + (nat_of_ascii m2 - 48))%nat.
  split; [exact Hlt|]. split; [lia|].
  unfold getCurrentTime.
  rewrite (two_digits h1 h2 Dh1 Dh2), (two_digits m1 m2 Dm1 Hm2).
  reflexivity.
Qed.

Lemma valid_time_is_reached_witness :
  exists h m, (h < 24)%nat /\ (m < 60)%nat /\ getCurrentTime h m = "18:30".
Proof. apply (valid_time_is_reached "18:30"); reflexivity. Defined.

End ClockFacts.

(** ** Debts and statistics *)

Module BalancesFacts.
Import MoySklad Balances.
Local Open Scope string_scope.

Lemma Qltb_spec (x y : Q) : Qltb x y = true <-> (x < y)%Q.
Proof.
  unfold Qltb. rewrite Qlt_alt. destruct (x ?= y)%Q; split; congruence.
Qed.

Lemma Qltb_false (x y : Q) : Qltb x y = false <-> (y <= x)%Q.
Proof.
  split.
  - intros H. apply Qnot_lt_le. intros Hlt. apply Qltb_spec in Hlt. congruence.
  - intros H. destruct (Qltb x y) eqn:E; [|reflexivity].
    apply Qltb_spec in E. exfalso. apply (Qlt_not_le _ _ E H).
Qed.

Lemma Qle_bool_false (x y : Q) : Qle_bool x y = false <-> (y < x)%Q.
Proof.
  split.
  - intros H. apply Qnot_le_lt. intros Hle. apply Qle_bool_iff in Hle. congruence.
  - intros H. destruct (Qle_bool x y) eqn:E; [|reflexivity].
    apply Qle_bool_iff in E. exfalso. apply (Qlt_not_le _ _ H E).
Qed.

Lemma Qabs_of_negative (x : Q) : (x < 0)%Q -> (Qabs x == - x)%Q /\ (0 < Qabs x)%Q.
Proof.
  intros H.
  assert (E : (Qabs x == - x)%Q) by (apply Qabs_neg, Qlt_le_weak, H).
  split; [exact E|]. rewrite E. lra.
Qed.

(** [getDebtAmount] and [isDebtor] agree: the amount is never negative,
    it is positive exactly when [isDebtor] says yes, and both leave the
    cache in the same state. *)
Theorem debt_amount_iff_debtor (net : network) (t_get t_set : Z) (ph : string)
    (c : gmap string (Cache.doc details)) :
  let amount := getDebtAmount net t_get t_set ph c in
  let debtor := isDebtor net t_get t_set ph c in
  amount.2 = debtor.2 /\
  (0 <= amount.1)%Q /\
  (debtor.1 = true <-> (0 < amount.1)%Q) /\
  (debtor.1 = false -> amount.1 = 0%Q).
Proof.
  unfold getDebtAmount, isDebtor.
  destruct (getCounterpartyByPhone net t_get t_set ph true c) as [[cp|] c'];
    cbn [fst snd].
  - destruct (Qle_bool 0 (balance cp)) eqn:Hle; cbn [fst snd].
    + apply Qle_bool_iff in Hle.
      assert (Hb : Qltb (balance cp) 0 = false) by (apply Qltb_false, Hle).
      rewrite Hb. repeat split; try lra; try discriminate.
    + apply Qle_bool_false in Hle.
      destruct (Qabs_of_negative _ Hle) as [_ Hpos].
      assert (Hb : Qltb (balance cp) 0 = true) by (apply Qltb_spec, Hle).
      rewrite Hb. repeat split; try lra; try discriminate; auto.
  - repeat split; try lra; try discriminate.
Qed.




(** What [findCounterpartyByPhone] returns has a phone that is not empty,
    a zero balance and the status [unknown]; an empty phone finds
    nothing, whatever the API holds. *)
Theorem found_basic_info (net : network) (ph : string) (b : basic_info) :
  findCounterpartyByPhone net ph = Some b ->
  ph <> "" /\ bi_phone b <> "" /\ bi_balance b = 0%Q /\ bi_status b = Unknown /\
  findCounterpartyByPhone net "" = None.
Proof.
  unfold findCounterpartyByPhone.
  destruct ph as [|a r]; [discriminate|].
  destruct (search net (clean_phone (String a r))) as [| code | [data|]];
    try discriminate.
  destruct (search_rows data) as [[|cp rows]|]; try discriminate.
  intros [= <-]. cbn [bi_phone bi_balance bi_status].
  split; [discriminate|]. split; [|auto].
  unfold or_string. destruct (cj_phone cp); discriminate.
Qed.

Lemma found_basic_info_witness :
  "+998901234567" <> "" /\
  bi_phone (BasicInfo "cp-1" "Acme" "+998901234567" 0 Unknown) <> "" /\
  bi_balance (BasicInfo "cp-1" "Acme" "+998901234567" 0 Unknown) = 0%Q /\
  bi_status (BasicInfo "cp-1" "Acme" "+998901234567" 0 Unknown) = Unknown /\
  findCounterpartyByPhone Samples.net_up "" = None.
Proof.
  apply (found_basic_info Samples.net_up "+998901234567"). reflexivity.
Defined.








Lemma details_status_known (net : network) (cid : string) (d : details) :
  getCounterpartyDetails net cid = Some d -> status_of d <> Unknown.
Proof.
  unfold getCounterpartyDetails.
  destruct cid as [|a r]; [discriminate|].
  destruct (detail net (String a r)) as [| code | [cp|]]; try discriminate.
  destruct (report net) as [| code | [rep|]]; try discriminate;
    intros [= <-]; cbn [status_of];
    repeat match goal with
           | |- context [if ?b then _ else _] => destruct b
           end; discriminate.
Qed.

Lemma gather_spec (net : network) (rows : list counterparty_json) :
  forall acc d,
  In d (gather net rows acc) ->
  In d acc \/
  exists row, In row rows /\ getCounterpartyDetails net (cj_id row) = Some d.
Proof.
  induction rows as [|row rows IH]; intros acc d Hd; [left; exact Hd|].
  cbn [gather] in Hd.
  destruct (getCounterpartyDetails net (cj_id row)) as [d0|] eqn:Hrow.
  - apply IH in Hd as [Hd|(row' & Hin & Hrow')].
    + apply in_app_or in Hd as [Hd|[<-|[]]]; [left; exact Hd|].
      right. exists row. split; [left; reflexivity|exact Hrow].
    + right. exists row'. split; [right; exact Hin|exact Hrow'].
  - apply IH in Hd as [Hd|(row' & Hin & Hrow')]; [left; exact Hd|].
    right. exists row'. split; [right; exact Hin|exact Hrow'].
Qed.

Lemma walk_spec (net : network) (page : Z -> Z -> reply page_json)
    (fuel : nat) : forall offset acc res,
  walk fuel net page offset acc = Some res ->
  forall d, In d res ->
  In d acc \/
  exists off rows row,
    page_rows (getAllCounterparties page page_limit off) = Some rows /\
    In row rows /\
    getCounterpartyDetails net (cj_id row) = Some d.
Proof.
  induction fuel as [|fuel IH]; intros offset acc res Hres d Hd; [discriminate|].
  cbn [walk] in Hres.
  destruct (page_rows (getAllCounterparties page page_limit offset))
    as [[|row rows]|] eqn:Hrows.
  - injection Hres as <-. left. exact Hd.
  - assert (Hstep : In d (gather net (row :: rows) acc) ->
                    In d acc \/
                    exists off rows0 row0,
                      page_rows (getAllCounterparties page page_limit off)
                        = Some rows0 /\
                      In row0 rows0 /\
                      getCounterpartyDetails net (cj_id row0) = Some d).
    { intros [H|(row0 & Hin & Hrow0)]%gather_spec; [left; exact H|].
      right. exists offset, (row :: rows), row0. auto. }
    destruct (page_size (getAllCounterparties page page_limit offset))
      as [size|].
    + destruct (size <? page_limit)%Z.
      * injection Hres as <-. apply Hstep, Hd.
      * destruct (IH _ _ _ Hres d Hd) as [H|H]; [apply Hstep, H|right; exact H].
    + destruct (IH _ _ _ Hres d Hd) as [H|H]; [apply Hstep, H|right; exact H].
  - injection Hres as <-. left. exact Hd.
Qed.

(** Every record of [getAllCounterpartiesWithBalances] is what
    [getCounterpartyDetails] returned for a row of some fetched page:
    none has the status [unknown], and a row whose details could not be
    fetched is left out. *)
Theorem all_counterparties_are_details (fuel : nat) (net : network)
    (page : Z -> Z -> reply page_json) (res : list details) :
  getAllCounterpartiesWithBalances fuel net page = Some res ->
  forall d, In d res ->
  status_of d <> Unknown /\
  exists off rows row,
    page_rows (getAllCounterparties page page_limit off) = Some rows /\
    In row rows /\
    getCounterpartyDetails net (cj_id row) = Some d.
Proof.
  intros Hres d Hd.
  destruct (walk_spec net page fuel 0 [] res Hres d Hd)
    as [[]|(off & rows & row & Hrows & Hin & Hrow)].
  split; [exact (details_status_known _ _ _ Hrow)|].
  exists off, rows, row. auto.
Qed.

Lemma walk_more_fuel (net : network) (page : Z -> Z -> reply page_json)
    (fuel : nat) : forall offset acc res,
  walk fuel net page offset acc = Some res ->
  walk (S fuel) net page offset acc = Some res.
Proof.
  induction fuel as [|fuel IH]; intros offset acc res Hres; [discriminate|].
  cbn [walk] in Hres. cbn [walk].
  destruct (page_rows (getAllCounterparties page page_limit offset))
    as [[|row rows]|]; try exact Hres.
  destruct (page_size (getAllCounterparties page page_limit offset))
    as [size|].
  - destruct (size <? page_limit)%Z; [exact Hres|]. apply IH, Hres.
  - apply IH, Hres.
Qed.

Lemma walk_ends (net : network) (page : Z -> Z -> reply page_json)
    (k : nat) : forall offset acc,
  last_page page (offset + Z.of_nat k * page_limit) = true ->
  exists res, walk (S k) net page offset acc = Some res.
Proof.
  induction k as [|k IH]; intros offset acc Hlast.
  - replace (offset + Z.of_nat 0 * page_limit)%Z with offset in Hlast by lia.
    unfold last_page in Hlast. cbn [walk].
    destruct (page_rows (getAllCounterparties page page_limit offset))
      as [[|row rows]|]; eauto.
    destruct (page_size (getAllCounterparties page page_limit offset))
      as [size|]; [|discriminate].
    rewrite Hlast. eauto.
  - replace (offset + Z.of_nat (S k) * page_limit)%Z
      with ((offset + page_limit) + Z.of_nat k * page_limit)%Z in Hlast by lia.
    change (walk (S (S k)) net page offset acc)
      with (let data := getAllCounterparties page page_limit offset in
            match page_rows data with
            | None => Some acc
            | Some [] => Some acc
            | Some rows =>
                let all := gather net rows acc in
                match page_size data with
                | Some size =>
                    if (size <? page_limit)%Z then Some all
                    else walk (S k) net page (offset + page_limit)%Z all
                | None => walk (S k) net page (offset + page_limit)%Z all
                end
            end).
    cbv zeta.
    destruct (page_rows (getAllCounterparties page page_limit offset))
      as [[|row rows]|]; eauto.
    destruct (page_size (getAllCounterparties page page_limit offset))
      as [size|]; [destruct (size <? page_limit)%Z; eauto|]; apply IH, Hlast.
Qed.

(** The walk over the pages ends when some page has no rows, fails to
    load, or reports a size below the page limit: with that page the
    [k]-th, the result is there after [k + 1] pages and does not change
    with more. *)
Theorem walk_terminates (net : network) (page : Z -> Z -> reply page_json)
    (k : nat) :
  last_page page (Z.of_nat k * page_limit) = true ->
  exists res,
    forall fuel, (k < fuel)%nat ->
    getAllCounterpartiesWithBalances fuel net page = Some res.
Proof.
  intros Hlast.
  destruct (walk_ends net page k 0 []) as [res Hres]; [exact Hlast|].
  exists res. intros fuel Hfuel. unfold getAllCounterpartiesWithBalances.
  replace fuel with ((fuel - S k) + S k)%nat by lia.
  induction (fuel - S k)%nat as [|n IH]; [exact Hres|].
  apply walk_more_fuel, IH.
Qed.

Lemma all_counterparties_are_details_witness :
  let d := Details "cp-1" "Acme" "+998901234567" (div100 (-5000000))
                   Debtor false in
  status_of d <> Unknown /\
  exists off rows row,
    page_rows (getAllCounterparties Samples.one_page page_limit off) = Some rows /\
    In row rows /\
    getCounterpartyDetails Samples.net_up (cj_id row) = Some d.
Proof.
  apply (all_counterparties_are_details 1 Samples.net_up Samples.one_page
           [Details "cp-1" "Acme" "+998901234567" (div100 (-5000000))
                    Debtor false]);
    [reflexivity | left; reflexivity].
Defined.

Lemma walk_terminates_witness :
  exists res,
    forall fuel, (1 < fuel)%nat ->
    getAllCounterpartiesWithBalances fuel Samples.net_up Samples.one_page
    = Some res.
Proof.
  apply (walk_terminates Samples.net_up Samples.one_page 1). reflexivity.
Defined.

End BalancesFacts.

(** ** More on the delivery queue *)

Module QueueFacts.
Import RateLimiter Queue RateLimiterFacts.

Section WithResults.
Context {V E : Type}.
Implicit Types (e : entry V E) (w : world V E) (pending : list (Z * entry V E)).

Lemma run_duration (fuel : nat) : forall pending w,
  (enough pending w <= fuel)%nat ->
  clock w + 40 * Z.of_nat (length (queue (lim w)) + length pending)
  <= clock (run fuel pending w).
Proof.
  unfold enough.
  induction fuel as [|fuel IH]; intros pending w Hfuel; [lia|].
  cbn [run].
  destruct (arrive pending w) as [later w1] eqn:Ha.
  apply arrive_spec in Ha as (due & -> & Hq & Hm & Hc & Hd & Hs).
  rewrite length_app in *.
  assert (Hlen : length (queue (lim w1))
                 = (length (queue (lim w)) + length due)%nat).
  { rewrite Hq, length_app, length_map. reflexivity. }
  destruct (queue (lim w1)) as [|e rest] eqn:Hq1.
  - cbn [length] in Hlen.
    destruct later as [|[t e] later'].
    + cbn [stop clock length]. lia.
    + specialize (IH later' (schedule e (at_time t (stop w1)))).
      cbn [schedule at_time stop lim queue clock length app] in IH.
      rewrite Hq1 in IH. cbn [app length] in *.
      lia.
  - specialize (IH later (iteration e rest w1)).
    destruct (iteration_spec e rest w1)
      as (Iq & _ & _ & _ & called & _ & Hlo & Hhi).
    rewrite Iq in IH. cbn [length] in Hlen. lia.
Qed.

(** The queue never serves faster than one task per 40 ms: from its
    making, the clock has moved on by at least 40 ms for every submitted
    task when the queue has been served. *)
Theorem serving_takes_time (cap t0 : Z) pending (fuel : nat) :
  (enough pending (create cap t0) <= fuel)%nat ->
  t0 + 40 * Z.of_nat (length pending)
  <= clock (run fuel pending (create cap t0)).
Proof.
  intros Hfuel.
  pose proof (run_duration fuel pending (create cap t0) Hfuel) as H.
  cbn [create lim queue clock length] in H. exact H.
Qed.


End WithResults.

Lemma serving_takes_time_witness :
  0 + 40 * Z.of_nat (length (Samples.burst 900 100))
  <= clock (run 201 (Samples.burst 900 100) (create 25 0)).
Proof.
  apply (serving_takes_time 25 0 (Samples.burst 900 100) 201).
  vm_compute. lia.
Defined.


Section Counting.
Context {V E : Type}.
Implicit Types (e : entry V E) (w : world V E) (pending : list (Z * entry V E)).

Lemma spaced_below (a : Z * nat) (l : list (Z * nat)) :
  spaced (a :: l) -> forall d, In d l -> d.1 + 40 <= a.1.
Proof.
  revert a. induction l as [|b l IH]; intros a Hsp d Hd; [destruct Hd|].
  cbn [spaced] in Hsp. destruct Hsp as (Hab & Hsp).
  destruct Hd as [<-|Hd]; [exact Hab|].
  specialize (IH b Hsp d Hd). lia.
Qed.

Lemma rested_all w :
  rested w -> forall d, In d (dispatched w) -> d.1 + 40 <= clock w.
Proof.
  intros [Hsp Hlast] d Hd.
  destruct (dispatched w) as [|a l]; [destruct Hd|].
  destruct Hd as [<-|Hd]; [exact Hlast|].
  pose proof (spaced_below a l Hsp d Hd). lia.
Qed.

Lemma resolved_since_none (since : Z) w :
  (forall d, In d (dispatched w) -> d.1 < since) ->
  resolved_since since w = 0%nat.
Proof.
  intros Hall. unfold resolved_since, calls.
  assert (Hin : forall c, In c (combine (rev (dispatched w)) (settled w)) ->
                          c.1.1 < since).
  { intros [d s] Hc. apply in_combine_l in Hc. apply in_rev in Hc.
    apply Hall, Hc. }
  induction (combine (rev (dispatched w)) (settled w)) as [|c l IH];
    [reflexivity|].
  cbn [List.filter].
  destruct (Z.leb_spec since c.1.1) as [Hle|_].
  - specialize (Hin c (or_introl eq_refl)). lia.
  - cbn [andb]. apply IH. intros c' Hc'. apply Hin. right. exact Hc'.
Qed.

Lemma combine_snoc {A B : Type} (a : list A) : forall (b : list B) x y,
  length a = length b ->
  combine (a ++ [x]) (b ++ [y]) = combine a b ++ [(x, y)].
Proof.
  induction a as [|a0 a IH]; intros [|b0 b] x y Hlen;
    try discriminate; [reflexivity|].
  cbn. rewrite IH; [reflexivity|]. cbn in Hlen. lia.
Qed.

Lemma resolved_since_call (since called : Z) e w (l : limiter V E) (t : Z) :
  length (dispatched w) = length (settled w) ->
  resolved_since since
    (World l t ((called, who e) :: dispatched w) (settled w ++ [(who e, yields e)]))
  = (resolved_since since w
     + Nat.b2n ((since <=? called)%Z && resolved (yields e)))%nat.
Proof.
  intros Hlen. unfold resolved_since, calls.
  cbn [dispatched settled rev].
  rewrite combine_snoc by (rewrite length_rev; exact Hlen).
  rewrite List.filter_app, length_app. cbn [List.filter fst snd].
  destruct ((since <=? called)%Z && resolved (yields e))%bool; reflexivity.
Qed.

Lemma iteration_rested e rest w : rested w -> rested (iteration e rest w).
Proof.
  intros [Hsp Hlast].
  destruct (iteration_spec e rest w)
    as (_ & _ & _ & _ & called & Id & Hlo & Hhi).
  unfold rested. rewrite Id. split; [|exact Hhi].
  cbn [spaced]. split; [|exact Hsp].
  destruct (dispatched w) as [|b l]; [exact I|]. cbn [fst] in *. lia.
Qed.

Lemma iteration_counted e rest w : counted w -> counted (iteration e rest w).
Proof.
  intros (Hr & Hlen & Hst & Hsent & Hcnt).
  split; [apply iteration_rested, Hr|].
  pose proof (rested_all w Hr) as Hall.
  unfold iteration, sleep.
  destruct (Z.leb_spec 1000 (clock w - currentSecondStart (lim w))) as [Hel|Hel];
    [destruct (Z.leb_spec (maxPerSecond (lim w)) 0) as [Hcap|Hcap]
    |destruct (Z.leb_spec (maxPerSecond (lim w)) (sentInCurrentSecond (lim w)))
       as [Hcap|Hcap]];
    cbn [lim clock dispatched settled maxPerSecond sentInCurrentSecond
         currentSecondStart length];
    (split; [rewrite length_app; cbn [length]; lia|]);
    (split; [lia|]);
    rewrite (resolved_since_call _ _ e w) by exact Hlen;
    try (rewrite (resolved_since_none _ w)
           by (intros d Hd; specialize (Hall d Hd); lia));
    match goal with
    | |- context [(?a <=? ?b)] =>
        destruct (Z.leb_spec a b); [|lia]
    end;
    destruct (yields e); cbn [resolved andb Nat.b2n]; lia.
Qed.

Lemma arrive_counted pending : forall w later w1,
  arrive pending w = (later, w1) -> counted w -> counted w1.
Proof.
  induction pending as [|[t e] more IH]; intros w later w1; cbn [arrive].
  - intros [= <- <-] H. exact H.
  - destruct (t <=? clock w).
    + intros Ha Hw. apply (IH _ _ _ Ha). exact Hw.
    + intros [= <- <-] H. exact H.
Qed.

Lemma run_counted (fuel : nat) : forall pending w,
  counted w -> counted (run fuel pending w).
Proof.
  induction fuel as [|fuel IH]; intros pending w Hw; [exact Hw|].
  cbn [run].
  destruct (arrive pending w) as [later w1] eqn:Ha.
  pose proof (arrive_counted _ _ _ _ Ha Hw) as Hw1.
  destruct (queue (lim w1)) as [|e rest].
  - destruct later as [|[t e] later']; [exact Hw1|].
    apply IH.
    destruct Hw1 as ((Hsp & Hlast) & Hlen & Hst & Hsent & Hcnt).
    repeat split; try assumption;
      cbn [schedule at_time stop lim clock dispatched settled
           currentSecondStart sentInCurrentSecond maxPerSecond]; try lia.
    destruct (dispatched w1); [exact I|lia].
  - apply IH, iteration_counted, Hw1.
Qed.

Lemma run_cap (fuel : nat) : forall pending w,
  maxPerSecond (lim (run fuel pending w)) = maxPerSecond (lim w).
Proof.
  induction fuel as [|fuel IH]; intros pending w; [reflexivity|].
  cbn [run].
  destruct (arrive pending w) as [later w1] eqn:Ha.
  apply arrive_spec in Ha as (due & _ & _ & Hm & _).
  destruct (queue (lim w1)) as [|e rest].
  - destruct later as [|[t e] later']; [exact Hm|].
    rewrite IH. exact Hm.
  - rewrite IH. destruct (iteration_spec e rest w1) as (_ & Im & _).
    rewrite Im. exact Hm.
Qed.

(** In every state the limiter reaches, its counter is the number of
    resolved calls made since the start of its counting window, and that
    number is at most [maxPerSecond] (at most one for a cap below one):
    the cap holds within each counting window, for the tasks that
    resolve. *)
Theorem counter_counts_resolved_calls (cap t0 : Z) pending (fuel : nat) :
  let w := run fuel pending (create cap t0) in
  Z.of_nat (resolved_since (currentSecondStart (lim w)) w)
    = sentInCurrentSecond (lim w) /\
  Z.of_nat (resolved_since (currentSecondStart (lim w)) w) <= Z.max 1 cap.
Proof.
  intros w.
  assert (H0 : counted (create (V:=V) (E:=E) cap t0)).
  { repeat split; cbn; try lia. }
  pose proof (run_counted fuel pending _ H0) as (_ & _ & _ & Hsent & Hcnt).
  pose proof (run_cap fuel pending (create cap t0)) as Hm.
  fold w in Hsent, Hcnt, Hm. cbn [create lim maxPerSecond] in Hm.
  rewrite Hm in Hsent. split; [exact Hcnt|]. rewrite Hcnt. lia.
Qed.

Lemma iteration_of_thrower e rest w :
  resolved (yields e) = false ->
  0 < maxPerSecond (lim w) ->
  sentInCurrentSecond (lim w) < maxPerSecond (lim w) ->
  let w' := iteration e rest w in
  queue (lim w') = rest /\
  maxPerSecond (lim w') = maxPerSecond (lim w) /\
  sentInCurrentSecond (lim w') < maxPerSecond (lim w') /\
  dispatched w' = (clock w, who e) :: dispatched w /\
  clock w' = clock w + Z.of_N (run_ms e) + 40 + Z.of_N (gap_lag e).
Proof.
  intros Hthrew Hcap Hsent. unfold iteration, sleep.
  destruct (yields e) as [v|err]; [discriminate|].
  destruct (Z.leb_spec 1000 (clock w - currentSecondStart (lim w)));
    [destruct (Z.leb_spec (maxPerSecond (lim w)) 0); [lia|]
    |destruct (Z.leb_spec (maxPerSecond (lim w)) (sentInCurrentSecond (lim w)));
       [lia|]];
    cbn; repeat split; lia.
Qed.

(** A task that throws is not counted, so the cap never holds back a
    queue of tasks that all throw: each is called as soon as the 40 ms
    pause after the one before is over, however small [maxPerSecond]. *)
Theorem throwing_tasks_are_unchecked (es : list (entry V E)) :
  forall w (fuel : nat),
  queue (lim w) = es ->
  forallb (fun e => negb (resolved (yields e))) es = true ->
  0 < maxPerSecond (lim w) ->
  sentInCurrentSecond (lim w) < maxPerSecond (lim w) ->
  (length es < fuel)%nat ->
  map fst (rev (dispatched (run fuel [] w)))
  = map fst (rev (dispatched w)) ++ unchecked_times (clock w) es.
Proof.
  induction es as [|e rest IH]; intros w fuel Hq Hall Hcap Hsent Hfuel;
    (destruct fuel as [|fuel]; [cbn in Hfuel; lia|]);
    cbn [run arrive]; rewrite Hq.
  - cbn [stop dispatched unchecked_times]. rewrite app_nil_r. reflexivity.
  - cbn [forallb] in Hall. apply andb_prop in Hall as [He Hrest].
    apply negb_true_iff in He.
    destruct (iteration_of_thrower e rest w He Hcap Hsent)
      as (Iq & Im & Is & Id & Ic).
    rewrite (IH (iteration e rest w) fuel Iq Hrest); try assumption.
    + rewrite Id, Ic. cbn [rev unchecked_times].
      rewrite map_app, <- app_assoc. reflexivity.
    + rewrite Im. exact Hcap.
    + cbn [length] in Hfuel. lia.
Qed.

End Counting.

Lemma throwing_tasks_are_unchecked_witness :
  let w := fold_left (fun w e => schedule e w) (Samples.throwers 100)
                     (create 1 0) in
  map fst (rev (dispatched (run 101 [] w)))
  = map fst (rev (dispatched w)) ++ unchecked_times (clock w) (Samples.throwers 100).
Proof.
  apply (throwing_tasks_are_unchecked (Samples.throwers 100));
    [reflexivity | reflexivity | reflexivity | reflexivity | vm_compute; lia].
Defined.

(** With a cap of one per second, a hundred throwing tasks are called 25
    to the second. *)
Example throwers_pass_the_cap :
  let w := fold_left (fun w e => schedule e w) (Samples.throwers 100)
                     (create 1 0) in
  calls_in_window 0 (run 101 [] w) = 25%nat.
Proof. vm_compute. reflexivity. Qed.

End QueueFacts.

(** ** More on the sweep, manual reminders and broadcasts *)

Module SweepFacts.
Import MoySklad Reminder ReminderFacts.
Local Open Scope string_scope.


Lemma processUser_success (u : user) (s : served)
    (c : gmap string (Cache.doc details)) :
  let out := processUser u s c in
  telegram_id out.1.2 = telegram_id u /\
  (forall d, out.1.1 = Success d ->
     (0 < d)%Q /\ exists t, last_sent_at out.1.2 = Some t).
Proof.
  unfold processUser.
  destruct (is_active u); cbn [negb fst snd];
    [|split; [reflexivity|discriminate]].
  destruct (getCounterpartyByPhone (net s) (t_get s) (t_set s)
              (user_phone u) true c) as [[cp|] c'];
    cbn [fst snd]; [|split; [reflexivity|discriminate]].
  destruct (Qle_bool 0 (balance cp)) eqn:Hle;
    cbn [fst snd]; [split; [reflexivity|discriminate]|].
  apply BalancesFacts.Qle_bool_false in Hle.
  destruct (BalancesFacts.Qabs_of_negative _ Hle) as [_ Hpos].
  destruct (delivered s); cbn [fst snd]; [|split; [reflexivity|discriminate]].
  destruct (saved s) as [t|]; cbn [fst snd];
    [|split; [reflexivity|discriminate]].
  split; [reflexivity|]. intros d [= <-]. split; [exact Hpos|].
  exists t. reflexivity.
Qed.

(** A tick that finds no configured time, a time other than the present
    minute, no answer to the user query or no active user processes
    nobody, writes no statistics and leaves the cache alone; and any
    tick at all leaves [isRunning] as it found it. *)
Theorem idle_tick_does_nothing (s : sender) (env : tick)
    (c : gmap string (Cache.doc details)) :
  (globalSendTime env = None \/
   (exists t, globalSendTime env = Some t /\ currentTime env <> t) \/
   activeUsers env = None \/
   activeUsers env = Some []) ->
  (execute s env c).1.2 = nothing_done /\
  (execute s env c).2 = c /\
  (forall s0 env0 c0,
     isRunning (execute s0 env0 c0).1.1 = isRunning s0).
Proof.
  intros Hidle. split; [|split].
  - unfold execute, enter, attempt.
    destruct (isRunning s); [reflexivity|].
    destruct Hidle as [->|[(t & -> & Hne)|[H|H]]]; [reflexivity| | |].
    + apply String.eqb_neq in Hne. rewrite Hne. reflexivity.
    + rewrite H. destruct (globalSendTime env); [|reflexivity].
      destruct (negb _); reflexivity.
    + rewrite H. destruct (globalSendTime env); [|reflexivity].
      destruct (negb _); reflexivity.
  - unfold execute, enter, attempt.
    destruct (isRunning s); [reflexivity|].
    destruct Hidle as [->|[(t & -> & Hne)|[H|H]]]; [reflexivity| | |].
    + apply String.eqb_neq in Hne. rewrite Hne. reflexivity.
    + rewrite H. destruct (globalSendTime env); [|reflexivity].
      destruct (negb _); reflexivity.
    + rewrite H. destruct (globalSendTime env); [|reflexivity].
      destruct (negb _); reflexivity.
  - intros [running] env0 c0. unfold execute, enter. cbn [isRunning].
    destruct running; [reflexivity|].
    destruct (attempt env0 c0). reflexivity.
Qed.

Lemma idle_tick_does_nothing_witness :
  let env := Tick "09:01" (Some "09:00")
                  (Some [(Samples.debtor_user, Samples.serve_debtor)]) true in
  (execute (Sender false) env ∅).1.2 = nothing_done /\
  (execute (Sender false) env ∅).2 = ∅ /\
  (forall s0 env0 c0,
     isRunning (execute s0 env0 c0).1.1 = isRunning s0).
Proof.
  apply (idle_tick_does_nothing (Sender false)
           (Tick "09:01" (Some "09:00")
                 (Some [(Samples.debtor_user, Samples.serve_debtor)]) true) ∅).
  right. left. exists "09:00". split; [reflexivity|discriminate].
Defined.

Lemma sweep_order users : forall n c,
  let out := sweep users n c in
  map (fun ur => telegram_id ur.1) out.1.2
    = map (fun us => telegram_id us.1) users /\
  (forall u d, In (u, Success d) out.1.2 ->
     (0 < d)%Q /\ exists t, last_sent_at u = Some t).
Proof.
  induction users as [|[u s] more IH]; intros n c.
  - cbn. split; [reflexivity|]. intros u d [].
  - cbn [sweep].
    pose proof (processUser_success u s c) as (Hid & Hok).
    destruct (processUser u s c) as [[r u'] c1]. cbn [fst snd] in Hid, Hok.
    specialize (IH (count r n) c1).
    destruct (sweep more (count r n) c1) as [[n' log] c2].
    cbn [fst snd map] in *. destruct IH as [IHm IHs]. split.
    + f_equal; [exact Hid|exact IHm].
    + intros u0 d [[= <- Hr]|Hin]; [|apply (IHs u0 d Hin)].
      apply (Hok d Hr).
Qed.

(** A sweep processes every active user once, in the order of the query;
    it writes the number of successes as [messages_sent_today]; and each
    success is a reminder of a positive debt to a user whose
    [last_sent_at] is set. *)
Theorem sweep_in_order (env : tick) (target : string)
    (users : list (user * served)) (c : gmap string (Cache.doc details)) :
  globalSendTime env = Some target ->
  currentTime env = target ->
  activeUsers env = Some users ->
  users <> [] ->
  statsSaved env = true ->
  let rep := (execute (Sender false) env c).1.2 in
  map (fun ur => telegram_id ur.1) (processed rep)
    = map (fun us => telegram_id us.1) users /\
  messages_sent_today rep = Some (tally is_sent (processed rep)) /\
  (forall u d, In (u, Success d) (processed rep) ->
     (0 < d)%Q /\ exists t, last_sent_at u = Some t).
Proof.
  intros Htarget Htime Husers Hne Hstats.
  unfold execute, attempt. cbn [enter isRunning].
  rewrite Htarget, Htime, String.eqb_refl, Husers, Hstats. cbn [negb].
  destruct users as [|first more]; [congruence|].
  pose proof (sweep_counts (first :: more) (Counters 0 0 0) c) as Hcount.
  pose proof (sweep_order (first :: more) (Counters 0 0 0) c) as Horder.
  destruct (sweep (first :: more) (Counters 0 0 0) c) as [[n log] c'].
  cbn [fst snd sent] in Hcount, Horder.
  destruct Hcount as (_ & Hs & _). destruct Horder as [Hm Hpos].
  cbv zeta. cbn [fst snd processed messages_sent_today].
  split; [exact Hm|]. split; [rewrite Hs; reflexivity|exact Hpos].
Qed.

Lemma sweep_in_order_witness :
  let users := [(Samples.stranger, Samples.serve_nobody);
                (Samples.debtor_user, Samples.serve_debtor)] in
  let rep := (execute (Sender false) (Samples.at_nine users) ∅).1.2 in
  map (fun ur => telegram_id ur.1) (processed rep)
    = map (fun us => telegram_id us.1) users /\
  messages_sent_today rep = Some (tally is_sent (processed rep)) /\
  (forall u d, In (u, Success d) (processed rep) ->
     (0 < d)%Q /\ exists t, last_sent_at u = Some t).
Proof.
  apply (sweep_in_order
           (Samples.at_nine [(Samples.stranger, Samples.serve_nobody);
                             (Samples.debtor_user, Samples.serve_debtor)])
           "09:00"
           [(Samples.stranger, Samples.serve_nobody);
            (Samples.debtor_user, Samples.serve_debtor)] ∅);
    [reflexivity | reflexivity | reflexivity | discriminate | reflexivity].
Defined.

End SweepFacts.

Module AdminFacts.
Import MoySklad Admin.
Local Open Scope string_scope.

Lemma lookup_past_cache (net : network) (t_get t_set : Z) (ph : string)
    (c : gmap string (Cache.doc details)) :
  getCounterpartyByPhone net t_get t_set ph false c
  = (findCounterpartyByPhone net ph
       ≫= (fun b => getCounterpartyDetails net (bi_id b)), c).
Proof.
  unfold getCounterpartyByPhone.
  destruct (findCounterpartyByPhone net ph) as [b|]; [|reflexivity].
  cbn [mbind option_bind].
  destruct (bi_id b) as [|a i]; [reflexivity|].
  destruct (getCounterpartyDetails net (String a i)); reflexivity.
Qed.

Lemma sendReminders_spec (users : list (Reminder.user * Reminder.served)) :
  forall n c,
  let out := sendReminders users n c in
  out.2 = c /\
  sentCount out.1 =
    (sentCount n
     + length (List.filter (fun us => owes_now us && Reminder.delivered us.2)
                           users))%nat /\
  failedCount out.1 =
    (failedCount n
     + length (List.filter (fun us => owes_now us && negb (Reminder.delivered us.2))
                           users))%nat.
Proof.
  induction users as [|[u s] more IH]; intros n c.
  - cbn. repeat split; lia.
  - cbn [sendReminders]. unfold remind_one. rewrite lookup_past_cache.
    cbn [List.filter].
    assert (Ho : owes_now (u, s)
                 = match findCounterpartyByPhone (Reminder.net s)
                           (Reminder.user_phone u)
                         ≫= (fun b => getCounterpartyDetails (Reminder.net s)
                                                             (bi_id b)) with
                   | Some cp => Qltb (balance cp) 0
                   | None => false
                   end) by reflexivity.
    rewrite Ho. clear Ho. cbn [snd].
    destruct (findCounterpartyByPhone (Reminder.net s) (Reminder.user_phone u)
                ≫= (fun b => getCounterpartyDetails (Reminder.net s) (bi_id b)))
      as [cp|].
    + destruct (Qltb (balance cp) 0); [destruct (Reminder.delivered s)|];
        cbn [andb negb];
        match goal with
        | |- context [sendReminders more ?n0 c] =>
            destruct (IH n0 c) as (H1 & H2 & H3)
        end;
        cbv zeta; rewrite H1, H2, H3;
        cbn [sentCount failedCount length]; repeat split; lia.
    + destruct (IH n c) as (H1 & H2 & H3).
      cbv zeta. rewrite H1, H2, H3. cbn [andb]. repeat split; lia.
Qed.

(** The manual reminder route never reads or writes the cache; it counts
    as sent the users who owe by a fresh lookup and whose send resolves,
    as failed those who owe and whose send rejects, and nobody else: a
    user without a counterparty or without a debt is in neither count. *)
Theorem manual_reminders_count (users : list (Reminder.user * Reminder.served))
    (c : gmap string (Cache.doc details)) :
  let out := sendReminders users (ManualCounts 0 0) c in
  out.2 = c /\
  sentCount out.1 =
    length (List.filter (fun us => owes_now us && Reminder.delivered us.2) users) /\
  failedCount out.1 =
    length (List.filter (fun us => owes_now us && negb (Reminder.delivered us.2))
                        users) /\
  (sentCount out.1 + failedCount out.1)%nat
    = length (List.filter owes_now users).
Proof.
  destruct (sendReminders_spec users (ManualCounts 0 0) c) as (H1 & H2 & H3).
  cbv zeta. rewrite H1, H2, H3. clear H1 H2 H3.
  cbn [sentCount failedCount Nat.add].
  repeat split.
  induction users as [|us more IH]; [reflexivity|].
  cbn [List.filter].
  destruct (owes_now us); [|exact IH].
  destruct (Reminder.delivered us.2); cbn [andb negb length] in *; lia.
Qed.




(** A broadcast for the audience [specific] addresses nobody: the list
    of phones is not consulted and the users are not read; it ends as
    [completed] with a total of zero and its counts unchanged. *)
Theorem specific_reaches_nobody (b : broadcast)
    (activeUsers : option (list (Reminder.user * Reminder.served)))
    (t_done : Z) (c : gmap string (Cache.doc details)) :
  target_users b = specific ->
  sendBroadcast (Some b) activeUsers t_done c
  = (Some (Broadcast (title b) (message_uz b) (message_ru b) completed specific
                     (sent_count b) (failed_count b) 0 (Some t_done)), c).
Proof.
  intros Hspec. unfold sendBroadcast. rewrite Hspec. cbn. rewrite ?Hspec.
  reflexivity.
Qed.

Lemma specific_reaches_nobody_witness :
  sendBroadcast (Some Samples.promo)
                (Some [(Samples.debtor_user, Samples.serve_debtor)]) 5000 ∅
  = (Some (Broadcast "Promo" "Salom" "Привет" completed specific 0 0 0
                     (Some 5000)), ∅).
Proof.
  apply (specific_reaches_nobody Samples.promo
           (Some [(Samples.debtor_user, Samples.serve_debtor)]) 5000 ∅).
  reflexivity.
Defined.

End AdminFacts.
